(** * Compras: expense data access and auth context

    A shallow embedding of [src/lib/supabase.ts] (the expense data-access
    functions) and of the [AuthProvider] component (session state, profile
    resolution, role check), with the properties of the specification that
    concern them.

    Conventions of the embedding:
    - an [async] function is a computation in the monad [M S], a state
      transformer over [S] whose result is a value or a thrown exception; a
      thrown exception keeps the state reached so far, as in JavaScript;
    - the hosted backend (database, storage, auth service) is the record
      [World]: its tables, the outcome the service will give to each coming
      call ([plan]) and the calls received so far ([trace]);
    - an instant (an ISO-8601 string in the source) is its number of
      milliseconds since the epoch, a [Z];
    - a string is the UTF-8 encoding of the (well-formed) JavaScript string,
      a sequence of bytes. *)

From Stdlib Require Import String Ascii List ZArith Bool Lia.
From Stdlib Require Import Permutation Sorted DecimalString DecimalPos DecimalZ.
Import ListNotations.
Local Open Scope string_scope.
Local Open Scope Z_scope.

(** ** JavaScript values and built-ins used by the source *)

Module Js.

(** [s ? a : b] on a string: the empty string is falsy. *)
Definition truthy (s : string) : bool := negb (s =? "")%string.

(** [o ? a : b] on an optional string ([undefined], [null] are falsy). *)
Definition truthy_opt (o : option string) : bool :=
  match o with Some s => truthy s | None => false end.

(** [a || b] on optional strings. *)
Definition or_else (a b : option string) : option string :=
  if truthy_opt a then a else b.

(** A string from a list of byte values. *)
Definition bytes (l : list nat) : string :=
  fold_right (fun n s => String (ascii_of_nat n) s) EmptyString l.

(** The characters [String.prototype.trim] strips, the WhiteSpace and
    LineTerminator code points of ECMAScript, in UTF-8: U+0009 to U+000D,
    U+0020, U+00A0, U+1680, U+2000 to U+200A, U+2028, U+2029, U+202F,
    U+205F, U+3000 and U+FEFF. *)
Definition white_space : list string :=
  map bytes
    [[9]; [10]; [11]; [12]; [13]; [32]; [194; 160]; [225; 154; 128];
     [226; 128; 128]; [226; 128; 129]; [226; 128; 130]; [226; 128; 131];
     [226; 128; 132]; [226; 128; 133]; [226; 128; 134]; [226; 128; 135];
     [226; 128; 136]; [226; 128; 137]; [226; 128; 138];
     [226; 128; 168]; [226; 128; 169]; [226; 128; 175]; [226; 129; 159];
     [227; 128; 128]; [239; 187; 191]]%nat.

(** [s] without its prefix [w], when it has it. *)
Fixpoint strip_prefix (w s : string) : option string :=
  match w with
  | EmptyString => Some s
  | String a w' =>
      match s with
      | String b s' => if Ascii.eqb a b then strip_prefix w' s' else None
      | EmptyString => None
      end
  end.

Fixpoint strip_first (ws : list string) (s : string) : option string :=
  match ws with
  | [] => None
  | w :: ws' =>
      match strip_prefix w s with
      | Some r => Some r
      | None => strip_first ws' s
      end
  end.

(** [s] without its first character, when that is white space. *)
Definition after_space (s : string) : option string := strip_first white_space s.

(** Strips leading white space, one character at a time; [n] bounds the
    number of characters. *)
Fixpoint trim_start_upto (n : nat) (s : string) : string :=
  match n with
  | O => s
  | S n' =>
      match after_space s with
      | Some r => trim_start_upto n' r
      | None => s
      end
  end.

Definition trim_start (s : string) : string := trim_start_upto (String.length s) s.

(** Nothing is left of [s] once its leading white space is stripped. *)
Definition all_space (s : string) : bool := (trim_start s =? "")%string.

(** Cuts [s] where its trailing white space starts. *)
Fixpoint trim_end (s : string) : string :=
  match s with
  | String c s' => if all_space s then EmptyString else String c (trim_end s')
  | EmptyString => EmptyString
  end.

Definition trim (s : string) : string := trim_end (trim_start s).

(** [s.split(".").pop()]: the part of [s] after its last dot, the whole of
    [s] when it has none. *)
Fixpoint split_pop (sep : ascii) (s : string) (acc : string) : string :=
  match s with
  | String c s' =>
      if Ascii.eqb c sep then split_pop sep s' EmptyString
      else split_pop sep s' (acc ++ String c EmptyString)
  | EmptyString => acc
  end.

(** [Array.prototype.includes] on an array of strings. *)
Definition includes (l : list string) (x : string) : bool :=
  existsb (String.eqb x) l.

(** Decimal rendering of an integer in a template string. *)
Definition show (z : Z) : string := NilZero.string_of_int (Z.to_int z).

(** A [Date] object: a time value or the invalid date. *)
Inductive Date := ValidDate (ms : Z) | InvalidDate.

End Js.

(** ** Exceptions and the monad of asynchronous code *)

(** The [error] object the backend client reports. *)
Record BackendError := { code : string; message : string }.

(** What the source can throw: a backend error object, an [Error] with a
    message, and the [RangeError] of [toISOString] on an invalid date. *)
Inductive Exn :=
| ThrownBackend (e : BackendError)
| ThrownError (msg : string)
| ThrownRangeError.

Inductive Res (A : Type) :=
| Ok (a : A)
| Throw (x : Exn).
Arguments Ok {A} a.
Arguments Throw {A} x.

Definition M (S A : Type) : Type := S -> Res A * S.

Definition ret {S A} (a : A) : M S A := fun s => (Ok a, s).

Definition throw {S A} (x : Exn) : M S A := fun s => (Throw x, s).

Definition bind {S A B} (m : M S A) (k : A -> M S B) : M S B :=
  fun s =>
    match m s with
    | (Ok a, s') => k a s'
    | (Throw x, s') => (Throw x, s')
    end.

(** [try { m } catch (error) { h error }] *)
Definition try_catch {S A} (m : M S A) (h : Exn -> M S A) : M S A :=
  fun s =>
    match m s with
    | (Ok a, s') => (Ok a, s')
    | (Throw x, s') => h x s'
    end.

(** [try { m } finally { f }]: [f] runs on both exits and the outcome of [m]
    stands unless [f] throws. *)
Definition try_finally {S A} (m : M S A) (f : M S unit) : M S A :=
  fun s =>
    let (r, s') := m s in
    match f s' with
    | (Ok _, s'') => (r, s'')
    | (Throw x, s'') => (Throw x, s'')
    end.

Definition gets {S A} (f : S -> A) : M S A := fun s => (Ok (f s), s).

Definition modify {S} (f : S -> S) : M S unit := fun s => (Ok tt, f s).

(** A pure step that may throw. *)
Definition lift_res {S A} (r : Res A) : M S A := fun s => (r, s).

Declare Scope js_scope.
Delimit Scope js_scope with js.
Notation "x <- m ;; k" := (bind m (fun x => k))
  (at level 61, m at next level, right associativity) : js_scope.
Notation "m ;; k" := (bind m (fun _ => k))
  (at level 61, right associativity) : js_scope.
Local Open Scope js_scope.

(** ** Data model *)

(** [status: "pending" | "approved" | "rejected"] *)
Inductive Status := pending | approved | rejected.

(** [payment_status?: "pending" | "paid"] *)
Inductive PaymentStatus := payment_pending | paid.

Definition status_name (s : Status) : string :=
  match s with
  | pending => "pending"
  | approved => "approved"
  | rejected => "rejected"
  end.

Definition Status_eqb (a b : Status) : bool :=
  match a, b with
  | pending, pending | approved, approved | rejected, rejected => true
  | _, _ => false
  end.

(** [interface Expense]. A field marked [?] in the source is an option; the
    [amount] (a JavaScript number this layer never inspects) is an
    integer. *)
Module Expense.
Record t := mk {
  id : option string;
  user_id : string;
  name : string;
  description : string;
  amount : Z;
  purpose : string;
  cost_center_id : string;
  category_id : string;
  payment_date : string;
  status : Status;
  payment_status : option PaymentStatus;
  paid_at : option Z;
  rejection_reason : option string;
  submitted_date : option Z;
  updated_at : option Z }.
End Expense.

(** [interface Receipt]; [expense_id] is copied from the optional
    [expenseData.id]. *)
Module Receipt.
Record t := mk {
  id : option string;
  expense_id : option string;
  file_name : string;
  file_type : string;
  file_size : Z;
  storage_path : string;
  created_at : option Z }.
End Receipt.

(** The [roles] field of a [users] row as the client may receive it. *)
Inductive Roles :=
| RolesNull
| RolesString (s : string)
| RolesArray (l : list string).

(** A row of the [users] relation. *)
Module Profile.
Record t := mk {
  id : string;
  name : option string;
  email : option string;
  role : option string;
  roles : Roles }.
End Profile.

(** A row of [categories] or of [cost_centers]. *)
Module Named.
Record t := mk { id : string; name : string }.
End Named.

(** The fields of a browser [File] the source reads. *)
Module File.
Record t := mk { name : string; type : string; size : Z }.
End File.

(** The identity [supabase.auth.getUser()] returns; [metadata_name] is
    [user_metadata?.name]. *)
Module AuthUser.
Record t := mk {
  id : string;
  email : option string;
  metadata_name : option string }.
End AuthUser.

(** ** Queries the client builds *)

(** One filter of the query builder. [OrFilter] holds the raw string given
    to [query.or]. *)
Inductive Clause :=
| OrFilter (raw : string)
| Eq (column value : string)
| Gte (column : string) (value : Z)
| Lte (column : string) (value : Z).

(** The query on [expenses]: its filters in the order they were added and
    the [order(column, { ascending })] request. *)
Record Query := {
  clauses : list Clause;
  order : option (string * bool) }.

(** The object given to [update]: only the keys present are written.
    [u_paid_at] distinguishes an absent key from [paid_at: null]. *)
Record UpdateData := {
  u_status : option Status;
  u_updated_at : option Z;
  u_rejection_reason : option string;
  u_payment_status : option PaymentStatus;
  u_paid_at : option (option Z) }.

(** A call received by the backend. *)
Inductive Call :=
| SelectExpenses (q : Query)
| InsertExpense (e : Expense.t)
| Upload (path : string) (f : File.t)
| InsertReceipts (rs : list Receipt.t)
| UpdateExpense (id : string) (u : UpdateData)
| DeleteReceipts (expense_id : string)
| DeleteExpense (id : string)
| SelectCategories
| SelectCostCenters
| SelectUser (id : string)
| GetUser
| InsertUser (p : Profile.t)
| AuthSignOut.

(** What the service does with a call: serve it, answer with an [error]
    object, or fail so that the awaited promise rejects with the error. *)
Inductive Outcome :=
| Succeed
| Fail (e : BackendError)
| Reject (e : BackendError).

(** The [{ data, error }] object a call resolves to. *)
Record Response (A : Type) := { data : option A; error : option BackendError }.
Arguments data {A} r.
Arguments error {A} r.

Definition answered {A} (a : A) : Response A := {| data := Some a; error := None |}.
Definition failed {A} (e : BackendError) : Response A := {| data := None; error := Some e |}.

(** ** The backend *)

Record World := {
  expenses : list Expense.t;
  receipts : list Receipt.t;
  users : list Profile.t;
  categories : list Named.t;
  cost_centers : list Named.t;
  bucket : list (string * File.t);
  auth_user : option AuthUser.t;
  (** what each coming call will meet; [Succeed] once the list is used up *)
  plan : list Outcome;
  (** the calls received, oldest first *)
  trace : list Call;
  (** the indices of concurrent uploads in the order they settle *)
  settle_order : list nat;
  (** the service's reading of a raw [or] filter on an expense row *)
  or_filter : string -> Expense.t -> bool;
  (** the clock, read by [Date.now()], [new Date()] and column defaults *)
  now : Z;
  (** how far the clock moves on after each coming [new Date()]; it stands
      still once the list is used up *)
  clock_steps : list Z;
  (** the next server-assigned identifier *)
  next_id : nat }.

Definition with_expenses (v : list Expense.t) (w : World) : World :=
  {| expenses := v; receipts := receipts w; users := users w;
     categories := categories w; cost_centers := cost_centers w;
     bucket := bucket w; auth_user := auth_user w; plan := plan w;
     trace := trace w; settle_order := settle_order w;
     or_filter := or_filter w; now := now w;
     clock_steps := clock_steps w; next_id := next_id w |}.

Definition with_receipts (v : list Receipt.t) (w : World) : World :=
  {| expenses := expenses w; receipts := v; users := users w;
     categories := categories w; cost_centers := cost_centers w;
     bucket := bucket w; auth_user := auth_user w; plan := plan w;
     trace := trace w; settle_order := settle_order w;
     or_filter := or_filter w; now := now w;
     clock_steps := clock_steps w; next_id := next_id w |}.

Definition with_users (v : list Profile.t) (w : World) : World :=
  {| expenses := expenses w; receipts := receipts w; users := v;
     categories := categories w; cost_centers := cost_centers w;
     bucket := bucket w; auth_user := auth_user w; plan := plan w;
     trace := trace w; settle_order := settle_order w;
     or_filter := or_filter w; now := now w;
     clock_steps := clock_steps w; next_id := next_id w |}.

Definition with_bucket (v : list (string * File.t)) (w : World) : World :=
  {| expenses := expenses w; receipts := receipts w; users := users w;
     categories := categories w; cost_centers := cost_centers w;
     bucket := v; auth_user := auth_user w; plan := plan w;
     trace := trace w; settle_order := settle_order w;
     or_filter := or_filter w; now := now w;
     clock_steps := clock_steps w; next_id := next_id w |}.

Definition with_next_id (v : nat) (w : World) : World :=
  {| expenses := expenses w; receipts := receipts w; users := users w;
     categories := categories w; cost_centers := cost_centers w;
     bucket := bucket w; auth_user := auth_user w; plan := plan w;
     trace := trace w; settle_order := settle_order w;
     or_filter := or_filter w; now := now w;
     clock_steps := clock_steps w; next_id := v |}.

(** The backend receives call [c]: it is recorded and the head of the plan
    is used up. *)
Definition issue (c : Call) (w : World) : World :=
  {| expenses := expenses w; receipts := receipts w; users := users w;
     categories := categories w; cost_centers := cost_centers w;
     bucket := bucket w; auth_user := auth_user w; plan := tl (plan w);
     trace := trace w ++ [c]; settle_order := settle_order w;
     or_filter := or_filter w; now := now w;
     clock_steps := clock_steps w; next_id := next_id w |}.

Definition next_outcome (w : World) : Outcome := hd Succeed (plan w).

(** [await] of one backend call: [serve] is what the service does when it
    accepts the call. A refused call leaves the tables as they are. *)
Definition request {A} (c : Call) (serve : World -> Response A * World)
  : M World (Response A) :=
  fun w =>
    match next_outcome w with
    | Succeed => let (r, w') := serve (issue c w) in (Ok r, w')
    | Fail e => (Ok (failed e), issue c w)
    | Reject e => (Throw (ThrownBackend e), issue c w)
    end.

Definition with_clock (t : Z) (steps : list Z) (w : World) : World :=
  {| expenses := expenses w; receipts := receipts w; users := users w;
     categories := categories w; cost_centers := cost_centers w;
     bucket := bucket w; auth_user := auth_user w; plan := plan w;
     trace := trace w; settle_order := settle_order w;
     or_filter := or_filter w; now := t; clock_steps := steps;
     next_id := next_id w |}.

(** [new Date().toISOString()]: the instant the clock shows, after which
    the clock moves on by the next of its steps. *)
Definition new_Date : M World Z :=
  fun w => (Ok (now w), with_clock (now w + hd 0 (clock_steps w)) (tl (clock_steps w)) w).

(** [if (error) throw error; ... data] *)
Definition unwrap {A} (r : Response A) : M World (option A) :=
  match error r with
  | Some e => throw (ThrownBackend e)
  | None => ret (data r)
  end.

(** ** Ordering rows *)

Section Sort.
Context {A : Type} (le : A -> A -> bool).

Fixpoint insert_sorted (x : A) (l : list A) : list A :=
  match l with
  | [] => [x]
  | y :: l' => if le x y then x :: l else y :: insert_sorted x l'
  end.

(** A stable sort: rows that compare equal keep their table order. *)
Fixpoint sort_by (l : list A) : list A :=
  match l with
  | [] => []
  | x :: l' => insert_sorted x (sort_by l')
  end.
End Sort.

(** Order on a nullable instant; a null sorts after every value. *)
Definition time_le (a b : option Z) : bool :=
  match a, b with
  | _, None => true
  | None, Some _ => false
  | Some x, Some y => x <=? y
  end.

(** ** The service's side of the calls

    The database, the storage and the auth service are not part of the
    repository. Their side of each call is modelled after the
    specification's description of the relations: filters select the rows
    that satisfy all of them, [order] sorts, [delete] and [update] act on
    the rows a filter selects, [insert] appends rows, giving them the
    server-assigned fields they lack. *)

Definition text_column (column : string) (e : Expense.t) : option string :=
  if (column =? "status")%string then Some (status_name (Expense.status e))
  else if (column =? "category_id")%string then Some (Expense.category_id e)
  else if (column =? "cost_center_id")%string then Some (Expense.cost_center_id e)
  else None.

Definition time_column (column : string) (e : Expense.t) : option Z :=
  if (column =? "submitted_date")%string then Expense.submitted_date e
  else None.

(** A comparison with a null or with a column the row lacks selects
    nothing. *)
Definition clause_holds (w : World) (c : Clause) (e : Expense.t) : bool :=
  match c with
  | OrFilter raw => or_filter w raw e
  | Eq column value =>
      match text_column column e with
      | Some t => (t =? value)%string
      | None => false
      end
  | Gte column value =>
      match time_column column e with
      | Some t => value <=? t
      | None => false
      end
  | Lte column value =>
      match time_column column e with
      | Some t => t <=? value
      | None => false
      end
  end.

Definition selected (w : World) (q : Query) (e : Expense.t) : bool :=
  forallb (fun c => clause_holds w c e) (clauses q).

Definition ordered (q : Query) (rows : list Expense.t) : list Expense.t :=
  match order q with
  | Some (column, true) =>
      sort_by (fun a b => time_le (time_column column a) (time_column column b)) rows
  | Some (column, false) =>
      sort_by (fun a b => time_le (time_column column b) (time_column column a)) rows
  | None => rows
  end.

(** A row of the expense listing: the expense and the embedded resources
    [users:user_id (name, email)], [cost_centers:cost_center_id (name)],
    [categories:category_id (name)] and all the [receipts] of the expense. *)
Module ExpenseView.
Record t := mk {
  expense : Expense.t;
  users : option (option string * option string);
  cost_centers : option string;
  categories : option string;
  receipts : list Receipt.t }.
End ExpenseView.

Definition has_id (i : string) (o : option string) : bool :=
  match o with
  | Some j => (j =? i)%string
  | None => false
  end.

Definition embed (w : World) (e : Expense.t) : ExpenseView.t :=
  {| ExpenseView.expense := e;
     ExpenseView.users :=
       option_map (fun p => (Profile.name p, Profile.email p))
         (find (fun p => (Profile.id p =? Expense.user_id e)%string) (users w));
     ExpenseView.cost_centers :=
       option_map Named.name
         (find (fun c => (Named.id c =? Expense.cost_center_id e)%string) (cost_centers w));
     ExpenseView.categories :=
       option_map Named.name
         (find (fun c => (Named.id c =? Expense.category_id e)%string) (categories w));
     ExpenseView.receipts :=
       filter (fun r => match Expense.id e with
                        | Some i => has_id i (Receipt.expense_id r)
                        | None => false
                        end) (receipts w) |}.

Definition serve_select_expenses (q : Query) (w : World)
  : Response (list ExpenseView.t) * World :=
  (answered (map (embed w) (ordered q (filter (selected w q) (expenses w)))), w).

Definition fresh_id (w : World) : string := Js.show (Z.of_nat (next_id w)).

(** The row stored for an inserted expense: [id] and [submitted_date] are
    assigned by the server when the client sent none. *)
Definition stored_expense (w : World) (e : Expense.t) : Expense.t :=
  {| Expense.id := Some (match Expense.id e with Some i => i | None => fresh_id w end);
     Expense.user_id := Expense.user_id e;
     Expense.name := Expense.name e;
     Expense.description := Expense.description e;
     Expense.amount := Expense.amount e;
     Expense.purpose := Expense.purpose e;
     Expense.cost_center_id := Expense.cost_center_id e;
     Expense.category_id := Expense.category_id e;
     Expense.payment_date := Expense.payment_date e;
     Expense.status := Expense.status e;
     Expense.payment_status := Expense.payment_status e;
     Expense.paid_at := Expense.paid_at e;
     Expense.rejection_reason := Expense.rejection_reason e;
     Expense.submitted_date :=
       Some (match Expense.submitted_date e with Some t => t | None => now w end);
     Expense.updated_at := Expense.updated_at e |}.

Definition serve_insert_expense (e : Expense.t) (w : World)
  : Response Expense.t * World :=
  let row := stored_expense w e in
  (answered row, with_next_id (S (next_id w)) (with_expenses (expenses w ++ [row]) w)).

Definition serve_upload (path : string) (f : File.t) (w : World)
  : Response unit * World :=
  (answered tt, with_bucket (bucket w ++ [(path, f)]) w).

Definition stored_receipt (w : World) (n : nat) (r : Receipt.t) : Receipt.t :=
  {| Receipt.id :=
       Some (match Receipt.id r with
             | Some i => i
             | None => Js.show (Z.of_nat (next_id w + n))
             end);
     Receipt.expense_id := Receipt.expense_id r;
     Receipt.file_name := Receipt.file_name r;
     Receipt.file_type := Receipt.file_type r;
     Receipt.file_size := Receipt.file_size r;
     Receipt.storage_path := Receipt.storage_path r;
     Receipt.created_at :=
       Some (match Receipt.created_at r with Some t => t | None => now w end) |}.

Fixpoint stored_receipts (w : World) (n : nat) (rs : list Receipt.t) : list Receipt.t :=
  match rs with
  | [] => []
  | r :: rs' => stored_receipt w n r :: stored_receipts w (S n) rs'
  end.

Definition serve_insert_receipts (rs : list Receipt.t) (w : World)
  : Response unit * World :=
  (answered tt,
   with_next_id (next_id w + length rs)
     (with_receipts (receipts w ++ stored_receipts w 0 rs) w)).

(** [update(u)]: the keys present in [u] overwrite the row, the others are
    left as stored. *)
Definition apply_update (u : UpdateData) (e : Expense.t) : Expense.t :=
  {| Expense.id := Expense.id e;
     Expense.user_id := Expense.user_id e;
     Expense.name := Expense.name e;
     Expense.description := Expense.description e;
     Expense.amount := Expense.amount e;
     Expense.purpose := Expense.purpose e;
     Expense.cost_center_id := Expense.cost_center_id e;
     Expense.category_id := Expense.category_id e;
     Expense.payment_date := Expense.payment_date e;
     Expense.status :=
       match u_status u with Some s => s | None => Expense.status e end;
     Expense.payment_status :=
       match u_payment_status u with Some s => Some s | None => Expense.payment_status e end;
     Expense.paid_at :=
       match u_paid_at u with Some t => t | None => Expense.paid_at e end;
     Expense.rejection_reason :=
       match u_rejection_reason u with Some s => Some s | None => Expense.rejection_reason e end;
     Expense.submitted_date := Expense.submitted_date e;
     Expense.updated_at :=
       match u_updated_at u with Some t => Some t | None => Expense.updated_at e end |}.

Definition update_row (i : string) (u : UpdateData) (e : Expense.t) : Expense.t :=
  if has_id i (Expense.id e) then apply_update u e else e.

Definition serve_update_expense (i : string) (u : UpdateData) (w : World)
  : Response (list Expense.t) * World :=
  let rows := map (update_row i u) (expenses w) in
  (answered (filter (fun e => has_id i (Expense.id e)) rows), with_expenses rows w).

Definition serve_delete_receipts (i : string) (w : World) : Response unit * World :=
  (answered tt,
   with_receipts (filter (fun r => negb (has_id i (Receipt.expense_id r))) (receipts w)) w).

Definition serve_delete_expense (i : string) (w : World) : Response unit * World :=
  (answered tt,
   with_expenses (filter (fun e => negb (has_id i (Expense.id e))) (expenses w)) w).

Definition name_le (a b : Named.t) : bool := String.leb (Named.name a) (Named.name b).

Definition serve_select_categories (w : World) : Response (list Named.t) * World :=
  (answered (sort_by name_le (categories w)), w).

Definition serve_select_cost_centers (w : World) : Response (list Named.t) * World :=
  (answered (sort_by name_le (cost_centers w)), w).

(** ** [src/lib/supabase.ts]: the data-access functions *)

(** [filters.dateRange] *)
Record DateRange := { from : option Js.Date; to : option Js.Date }.

(** The [filters] object of [fetchExpenses]; an absent key is [None], and
    [noFilters] is the default [{}]. *)
Module Filters.
Record t := mk {
  search : option string;
  status : option string;
  category : option string;
  costCenter : option string;
  dateRange : option DateRange }.
End Filters.

Definition noFilters : Filters.t :=
  {| Filters.search := None; Filters.status := None; Filters.category := None;
     Filters.costCenter := None; Filters.dateRange := None |}.

(** [d.toISOString()] throws a [RangeError] on an invalid date. *)
Definition toISOString (d : Js.Date) : Res Z :=
  match d with
  | Js.ValidDate ms => Ok ms
  | Js.InvalidDate => Throw ThrownRangeError
  end.

Definition add_clause (c : Clause) (q : Query) : Query :=
  {| clauses := clauses q ++ [c]; order := order q |}.

Definition set_order (column : string) (ascending : bool) (q : Query) : Query :=
  {| clauses := clauses q; order := Some (column, ascending) |}.

(** [filters.dateRange?.from] and [filters.dateRange?.to] *)
Definition dateRange_from (filters : Filters.t) : option Js.Date :=
  match Filters.dateRange filters with Some r => from r | None => None end.

Definition dateRange_to (filters : Filters.t) : option Js.Date :=
  match Filters.dateRange filters with Some r => to r | None => None end.

(** [if (filters.search && filters.search.trim())] *)
Definition search_active (filters : Filters.t) : bool :=
  match Filters.search filters with
  | Some s => Js.truthy s && Js.truthy (Js.trim s)
  | None => false
  end.

(** [if (filters.k && filters.k !== "")] *)
Definition field_active (v : option string) : bool :=
  match v with
  | Some s => Js.truthy s && negb (s =? "")%string
  | None => false
  end.

Definition text_of (v : option string) : string :=
  match v with Some s => s | None => "" end.

(** The first part of the query of [fetchExpenses]: the [select] and the
    filters on [search], [status], [category] and [costCenter]. *)
Definition text_filters (filters : Filters.t) : Query :=
  let query := {| clauses := []; order := None |} in
  let query :=
    if search_active filters then
      let searchTerm := Js.trim (text_of (Filters.search filters)) in
      add_clause
        (OrFilter ("name.ilike.%" ++ searchTerm ++ "%,description.ilike.%"
                   ++ searchTerm ++ "%")) query
    else query in
  let query :=
    if field_active (Filters.status filters)
    then add_clause (Eq "status" (text_of (Filters.status filters))) query
    else query in
  let query :=
    if field_active (Filters.category filters)
    then add_clause (Eq "category_id" (text_of (Filters.category filters))) query
    else query in
  if field_active (Filters.costCenter filters)
  then add_clause (Eq "cost_center_id" (text_of (Filters.costCenter filters))) query
  else query.

(** The whole query, up to [query.order]: the date bounds are added to
    [text_filters]; it throws where [toISOString] does. *)
Definition expenses_query (filters : Filters.t) : Res Query :=
  let query := text_filters filters in
  match
    match dateRange_from filters with
    | Some d =>
        match toISOString d with
        | Ok iso => Ok (add_clause (Gte "submitted_date" iso) query)
        | Throw x => Throw x
        end
    | None => Ok query
    end
  with
  | Throw x => Throw x
  | Ok query =>
      match
        match dateRange_to filters with
        | Some d =>
            match toISOString d with
            | Ok iso => Ok (add_clause (Lte "submitted_date" iso) query)
            | Throw x => Throw x
            end
        | None => Ok query
        end
      with
      | Throw x => Throw x
      | Ok query => Ok (set_order "submitted_date" false query)
      end
  end.

Definition fetchExpenses (filters : Filters.t) : M World (list ExpenseView.t) :=
  try_catch
    (query <- lift_res (expenses_query filters) ;;
     r <- request (SelectExpenses query) (serve_select_expenses query) ;;
     data <- unwrap r ;;
     ret (match data with Some rows => rows | None => [] end))
    (fun error => throw error).

Definition id_text (o : option string) : string :=
  match o with Some i => i | None => "undefined" end.

(** The callback of [files.map]: the upload of file number [i] and the
    receipt record made for it. *)
Definition upload_file (expenseData : Expense.t) (i : nat) (file : File.t)
  : M World Receipt.t :=
  let fileExt := Js.split_pop "." (File.name file) "" in
  t <- gets now ;;
  let fileName :=
    id_text (Expense.id expenseData) ++ "/" ++ Js.show t ++ "_"
    ++ Js.show (Z.of_nat i) ++ "." ++ fileExt in
  let filePath := fileName in
  r <- request (Upload filePath file) (serve_upload filePath file) ;;
  match error r with
  | Some uploadError => throw (ThrownBackend uploadError)
  | None =>
      ret {| Receipt.id := None;
             Receipt.expense_id := Expense.id expenseData;
             Receipt.file_name := File.name file;
             Receipt.file_type := File.type file;
             Receipt.file_size := File.size file;
             Receipt.storage_path := filePath;
             Receipt.created_at := None |}
  end.

(** [files.map(async (file, i) => ...)]: every callback runs up to its
    upload, so the uploads are issued in the order of the files, and each
    promise ends fulfilled or rejected whatever the others do. *)
Fixpoint start_uploads (expenseData : Expense.t) (i : nat) (files : list File.t)
  (w : World) : list (Res Receipt.t) * World :=
  match files with
  | [] => ([], w)
  | file :: files' =>
      let (r, w1) := upload_file expenseData i file w in
      let (rs, w2) := start_uploads expenseData (S i) files' w1 in
      (r :: rs, w2)
  end.

Fixpoint all_fulfilled {A} (rs : list (Res A)) : Res (list A) :=
  match rs with
  | [] => Ok []
  | Ok a :: rs' =>
      match all_fulfilled rs' with
      | Ok l => Ok (a :: l)
      | Throw x => Throw x
      end
  | Throw x :: _ => Throw x
  end.

Fixpoint first_rejected {A} (settled : list nat) (rs : list (Res A)) : option Exn :=
  match settled with
  | [] => None
  | i :: settled' =>
      match nth_error rs i with
      | Some (Throw x) => Some x
      | _ => first_rejected settled' rs
      end
  end.

(** [Promise.all]: the values in the order of the promises when all are
    fulfilled, else the reason of the rejection that settles first (the one
    of least index when [settled] names none). *)
Definition promise_all {A} (settled : list nat) (rs : list (Res A)) : Res (list A) :=
  match all_fulfilled rs with
  | Ok l => Ok l
  | Throw x0 =>
      match first_rejected settled rs with
      | Some x => Throw x
      | None => Throw x0
      end
  end.

Definition upload_all (expenseData : Expense.t) (files : list File.t)
  : M World (list Receipt.t) :=
  fun w =>
    let (rs, w') := start_uploads expenseData 0 files w in
    (promise_all (settle_order w) rs, w').

Definition createExpense (expense : Expense.t) (files : list File.t)
  : M World (option Expense.t) :=
  try_catch
    (r <- request (InsertExpense expense) (serve_insert_expense expense) ;;
     expenseData <- unwrap r ;;
     match (0 <? length files)%nat, expenseData with
     | true, Some row =>
         receipts <- upload_all row files ;;
         r' <- request (InsertReceipts receipts) (serve_insert_receipts receipts) ;;
         match error r' with
         | Some receiptsError => throw (ThrownBackend receiptsError)
         | None => ret tt
         end
     | _, _ => ret tt
     end ;;
     ret expenseData)
    (fun error => throw error).

Definition updateExpenseStatus (id : string) (status : Status)
  (rejectionReason : option string) : M World (option (list Expense.t)) :=
  try_catch
    (t <- new_Date ;;
     let updateData :=
       {| u_status := Some status; u_updated_at := Some t;
          u_rejection_reason :=
            if Status_eqb status rejected && Js.truthy_opt rejectionReason
            then rejectionReason else None;
          u_payment_status := None; u_paid_at := None |} in
     r <- request (UpdateExpense id updateData) (serve_update_expense id updateData) ;;
     unwrap r)
    (fun error => throw error).

Definition updatePaymentStatus (id : string) (isPaid : bool)
  : M World (option (list Expense.t)) :=
  try_catch
    (paid_at <- (if isPaid then t <- new_Date ;; ret (Some t) else ret None) ;;
     updated_at <- new_Date ;;
     let updateData :=
       {| u_status := None; u_updated_at := Some updated_at;
          u_rejection_reason := None;
          u_payment_status := Some (if isPaid then paid else payment_pending);
          u_paid_at := Some paid_at |} in
     r <- request (UpdateExpense id updateData) (serve_update_expense id updateData) ;;
     unwrap r)
    (fun error => throw error).

Definition fetchCategories : M World (list Named.t) :=
  try_catch
    (r <- request SelectCategories serve_select_categories ;;
     data <- unwrap r ;;
     ret (match data with Some rows => rows | None => [] end))
    (fun error => ret []).

Definition fetchCostCenters : M World (list Named.t) :=
  try_catch
    (r <- request SelectCostCenters serve_select_cost_centers ;;
     data <- unwrap r ;;
     ret (match data with Some rows => rows | None => [] end))
    (fun error => ret []).

Definition deleteExpense (id : string) : M World bool :=
  try_catch
    (r <- request (DeleteReceipts id) (serve_delete_receipts id) ;;
     match error r with
     | Some receiptsError => throw (ThrownBackend receiptsError)
     | None =>
         r' <- request (DeleteExpense id) (serve_delete_expense id) ;;
         match error r' with
         | Some e => throw (ThrownBackend e)
         | None => ret true
         end
     end)
    (fun error => throw error).

(** ** The auth context ([AuthProvider]) *)

Module User.
Record t := mk { id : string }.
End User.

(** A session; [user] is [session.user]. *)
Module Session.
Record t := mk { user : option User.t }.
End Session.

(** [import.meta.env] *)
Record Env := {
  VITE_SUPABASE_URL : option string;
  VITE_SUPABASE_ANON_KEY : option string }.

(** The state of the provider: the six [useState] cells, the [initialLoad]
    variable of the effect, the environment and the backend. *)
Record App := {
  session : option Session.t;
  user : option User.t;
  profile : option Profile.t;
  isLoading : bool;
  isAdmin : bool;
  userRoles : list string;
  initialLoad : bool;
  env : Env;
  world : World }.

Definition setSession (v : option Session.t) : M App unit :=
  modify (fun a =>
    {| session := v; user := user a; profile := profile a; isLoading := isLoading a;
       isAdmin := isAdmin a; userRoles := userRoles a; initialLoad := initialLoad a;
       env := env a; world := world a |}).

Definition setUser (v : option User.t) : M App unit :=
  modify (fun a =>
    {| session := session a; user := v; profile := profile a; isLoading := isLoading a;
       isAdmin := isAdmin a; userRoles := userRoles a; initialLoad := initialLoad a;
       env := env a; world := world a |}).

Definition setProfile (v : option Profile.t) : M App unit :=
  modify (fun a =>
    {| session := session a; user := user a; profile := v; isLoading := isLoading a;
       isAdmin := isAdmin a; userRoles := userRoles a; initialLoad := initialLoad a;
       env := env a; world := world a |}).

Definition setIsLoading (v : bool) : M App unit :=
  modify (fun a =>
    {| session := session a; user := user a; profile := profile a; isLoading := v;
       isAdmin := isAdmin a; userRoles := userRoles a; initialLoad := initialLoad a;
       env := env a; world := world a |}).

Definition setIsAdmin (v : bool) : M App unit :=
  modify (fun a =>
    {| session := session a; user := user a; profile := profile a; isLoading := isLoading a;
       isAdmin := v; userRoles := userRoles a; initialLoad := initialLoad a;
       env := env a; world := world a |}).

Definition setUserRoles (v : list string) : M App unit :=
  modify (fun a =>
    {| session := session a; user := user a; profile := profile a; isLoading := isLoading a;
       isAdmin := isAdmin a; userRoles := v; initialLoad := initialLoad a;
       env := env a; world := world a |}).

Definition set_initialLoad (v : bool) : M App unit :=
  modify (fun a =>
    {| session := session a; user := user a; profile := profile a; isLoading := isLoading a;
       isAdmin := isAdmin a; userRoles := userRoles a; initialLoad := v;
       env := env a; world := world a |}).

Definition with_world (w : World) (a : App) : App :=
  {| session := session a; user := user a; profile := profile a; isLoading := isLoading a;
     isAdmin := isAdmin a; userRoles := userRoles a; initialLoad := initialLoad a;
     env := env a; world := w |}.

(** A backend call made from the provider. *)
Definition backend {A} (m : M World A) : M App A :=
  fun a => let (r, w) := m (world a) in (r, with_world w a).

(** [.from("users").select("*").eq("id", userId).single()]: the row when
    exactly one matches, else the error PGRST116. *)
Definition serve_select_user (userId : string) (w : World)
  : Response Profile.t * World :=
  match filter (fun p => (Profile.id p =? userId)%string) (users w) with
  | [p] => (answered p, w)
  | _ =>
      (failed {| code := "PGRST116";
                 message := "JSON object requested, multiple (or no) rows returned" |}, w)
  end.

(** [supabase.auth.getUser()]; [data] is [userData.data?.user]. *)
Definition serve_get_user (w : World) : Response AuthUser.t * World :=
  ({| data := auth_user w; error := None |}, w).

(** Constraint violations are among the failures the plan decides; an
    accepted insert appends the row. *)
Definition serve_insert_user (p : Profile.t) (w : World) : Response unit * World :=
  (answered tt, with_users (users w ++ [p]) w).

Definition serve_sign_out (w : World) : Response unit * World :=
  (answered tt,
   {| expenses := expenses w; receipts := receipts w; users := users w;
      categories := categories w; cost_centers := cost_centers w;
      bucket := bucket w; auth_user := None; plan := plan w;
      trace := trace w; settle_order := settle_order w;
      or_filter := or_filter w; now := now w;
     clock_steps := clock_steps w; next_id := next_id w |}).

(** [data.roles || (data.role ? [data.role] : ["user"])]: an array is
    truthy even when empty, a string when it is not empty. *)
Definition resolved_roles (data : Profile.t) : Roles :=
  match Profile.roles data with
  | RolesArray l => RolesArray l
  | RolesString s =>
      if Js.truthy s then RolesString s
      else if Js.truthy_opt (Profile.role data)
           then RolesArray [text_of (Profile.role data)] else RolesArray ["user"]
  | RolesNull =>
      if Js.truthy_opt (Profile.role data)
      then RolesArray [text_of (Profile.role data)] else RolesArray ["user"]
  end.

(** [Array.isArray(roles) ? roles.includes("admin") : roles === "admin"] *)
Definition admin_of (roles : Roles) : bool :=
  match roles with
  | RolesArray l => Js.includes l "admin"
  | RolesString s => (s =? "admin")%string
  | RolesNull => false
  end.

(** [Array.isArray(roles) ? roles : (roles ? [roles] : ["user"])] *)
Definition roles_of (roles : Roles) : list string :=
  match roles with
  | RolesArray l => l
  | RolesString s => if Js.truthy s then [s] else ["user"]
  | RolesNull => ["user"]
  end.

Definition env_missing (e : Env) : bool :=
  negb (Js.truthy_opt (VITE_SUPABASE_URL e)) || negb (Js.truthy_opt (VITE_SUPABASE_ANON_KEY e)).

(** The part of [fetchUserProfile] run when the first read reports the
    error PGRST116: create the profile and read it again. The result tells
    whether the function returned from inside this block. *)
Definition create_profile (userId : string) : M App bool :=
  userData <- backend (request GetUser serve_get_user) ;;
  match data userData with
  | Some u =>
      let row :=
        {| Profile.id := userId;
           Profile.name := Js.or_else (AuthUser.metadata_name u) (AuthUser.email u);
           Profile.email := AuthUser.email u;
           Profile.role := Some "user";
           Profile.roles := RolesArray ["user"] |} in
      ins <- backend (request (InsertUser row) (serve_insert_user row)) ;;
      match error ins with
      | None =>
          again <- backend (request (SelectUser userId) (serve_select_user userId)) ;;
          match data again with
          | Some newData =>
              setProfile (Some newData) ;;
              let roles := resolved_roles newData in
              setIsAdmin (admin_of roles) ;;
              setUserRoles (roles_of roles) ;;
              setIsLoading false ;;
              ret true
          | None => ret false
          end
      | Some insertError => ret false
      end
  | None => ret false
  end.

Definition fetchUserProfile (userId : string) : M App unit :=
  setIsLoading true ;;
  try_finally
    (try_catch
       (e <- gets env ;;
        (if env_missing e
         then throw (ThrownError "Variaveis de ambiente do Supabase nao configuradas")
         else ret tt) ;;
        r <- backend (request (SelectUser userId) (serve_select_user userId)) ;;
        match error r with
        | Some error =>
            returned <-
              (if (code error =? "PGRST116")%string
               then create_profile userId else ret false) ;;
            if returned then ret tt
            else
              setProfile None ;;
              setIsAdmin false ;;
              setUserRoles ["user"]
        | None =>
            match data r with
            | Some data =>
                let roles := resolved_roles data in
                setProfile (Some data) ;;
                setIsAdmin (admin_of roles) ;;
                setUserRoles (roles_of roles)
            | None => throw (ThrownError "Cannot read properties of null")
            end
        end)
       (fun error =>
          setProfile None ;;
          setIsAdmin false ;;
          setUserRoles ["user"]))
    (setIsLoading false).

(** [session?.user ?? null] *)
Definition session_user (s : option Session.t) : option User.t :=
  match s with Some s' => Session.user s' | None => None end.

(** The callback of [supabase.auth.getSession().then]. The source starts
    [fetchUserProfile] here without [await]: the callback returns while the
    profile read is in flight. The embedding takes the read to its end
    within the step, so the state after the step is the one reached when
    the read has settled and no other handler ran meanwhile. *)
Definition onGetSession (s : option Session.t) : M App unit :=
  setSession s ;;
  setUser (session_user s) ;;
  match session_user s with
  | Some u => fetchUserProfile (User.id u)
  | None => setIsLoading false
  end.

(** The listener given to [supabase.auth.onAuthStateChange]. *)
Definition onAuthStateChange (s : option Session.t) : M App unit :=
  first <- gets initialLoad ;;
  if first then set_initialLoad false
  else
    setSession s ;;
    setUser (session_user s) ;;
    match session_user s with
    | Some u => fetchUserProfile (User.id u)
    | None =>
        setProfile None ;;
        setIsAdmin false ;;
        setUserRoles [] ;;
        setIsLoading false
    end.

(** [handleVisibility]; [visible] is [document.visibilityState === "visible"]. *)
Definition handleVisibility (visible : bool) : M App unit :=
  if visible then setIsLoading false else ret tt.

Definition signOut : M App unit :=
  backend (request AuthSignOut serve_sign_out) ;;
  setSession None ;;
  setUser None ;;
  setProfile None ;;
  setIsAdmin false ;;
  setUserRoles [] ;;
  setIsLoading false.

Definition hasRole (a : App) (role : string) : bool :=
  if isAdmin a then true else Js.includes (userRoles a) role.

(** The provider when its effect has just run: the initial values of the
    state cells and [initialLoad = true]. *)
Definition mount (e : Env) (w : World) : App :=
  {| session := None; user := None; profile := None; isLoading := true;
     isAdmin := false; userRoles := []; initialLoad := true; env := e; world := w |}.

(** What happens to a mounted provider. Each handler runs to its end before
    the next event is taken: the runs of [run] are those in which no event
    arrives while a handler waits for the backend. A state in which a
    handler is still waiting, such as one with a profile read in flight, is
    not a state of [run]. *)
Inductive Event :=
| SessionLoaded (s : option Session.t)
| AuthEvent (s : option Session.t)
| Visibility (visible : bool)
| SignOutCalled.

Definition handle (ev : Event) : M App unit :=
  match ev with
  | SessionLoaded s => onGetSession s
  | AuthEvent s => onAuthStateChange s
  | Visibility v => handleVisibility v
  | SignOutCalled => signOut
  end.

Fixpoint run (evs : list Event) (a : App) : App :=
  match evs with
  | [] => a
  | ev :: evs' => run evs' (snd (handle ev a))
  end.

(** ** Concrete data

    A small backend and a few inputs, on which the properties below are
    instantiated. *)

Module Sample.

Definition expense (i : string) (st : Status) (reason : option string)
  (submitted : option Z) : Expense.t :=
  {| Expense.id := Some i; Expense.user_id := "u1"; Expense.name := "Taxi";
     Expense.description := "airport"; Expense.amount := 4200;
     Expense.purpose := "travel"; Expense.cost_center_id := "cc1";
     Expense.category_id := "cat1"; Expense.payment_date := "2024-03-01";
     Expense.status := st; Expense.payment_status := None;
     Expense.paid_at := None; Expense.rejection_reason := reason;
     Expense.submitted_date := submitted; Expense.updated_at := None |}.

(** An expense as a form submits it: no id, no dates. *)
Definition draft : Expense.t :=
  {| Expense.id := None; Expense.user_id := "u1"; Expense.name := "Hotel";
     Expense.description := "two nights"; Expense.amount := 30000;
     Expense.purpose := "travel"; Expense.cost_center_id := "cc1";
     Expense.category_id := "cat1"; Expense.payment_date := "2024-03-02";
     Expense.status := pending; Expense.payment_status := None;
     Expense.paid_at := None; Expense.rejection_reason := None;
     Expense.submitted_date := None; Expense.updated_at := None |}.

Definition receipt (i e : string) : Receipt.t :=
  {| Receipt.id := Some i; Receipt.expense_id := Some e;
     Receipt.file_name := "scan.pdf"; Receipt.file_type := "application/pdf";
     Receipt.file_size := 1024; Receipt.storage_path := e ++ "/1_0.pdf";
     Receipt.created_at := Some 5 |}.

Definition scan : File.t :=
  {| File.name := "scan.pdf"; File.type := "application/pdf"; File.size := 1024 |}.

Definition photo : File.t :=
  {| File.name := "photo.jpg"; File.type := "image/jpeg"; File.size := 2048 |}.

Definition ana : Profile.t :=
  {| Profile.id := "u1"; Profile.name := Some "Ana";
     Profile.email := Some "ana@example.com"; Profile.role := None;
     Profile.roles := RolesArray ["approver"] |}.

(** The backend with plan [p]: four expenses (one
    rejected with a reason, one without a submission date), two receipts
    of expense [a], one of expense [b]. *)
Definition backend_with (p : list Outcome) : World :=
  {| expenses := [expense "a" rejected (Some "duplicate") (Some 5);
                  expense "b" pending None (Some 9);
                  expense "c" approved None (Some 7);
                  expense "d" approved None None];
     receipts := [receipt "r1" "a"; receipt "r2" "b"; receipt "r3" "a"];
     users := [ana];
     categories := [{| Named.id := "cat2"; Named.name := "Travel" |};
                    {| Named.id := "cat1"; Named.name := "Meals" |}];
     cost_centers := [{| Named.id := "cc2"; Named.name := "Sales" |};
                      {| Named.id := "cc1"; Named.name := "Admin" |}];
     bucket := [];
     auth_user := Some {| AuthUser.id := "u2"; AuthUser.email := Some "bob@example.com";
                          AuthUser.metadata_name := None |};
     plan := p;
     trace := [];
     settle_order := [1%nat; 0%nat];
     or_filter := fun _ _ => true;
     now := 100;
     clock_steps := [];
     next_id := 7 |}.

Definition unreachable : BackendError :=
  {| code := "503"; message := "service unavailable" |}.

(** Every call is served. *)
Definition up : World := backend_with [].

(** The next call is answered with an error. *)
Definition down : World := backend_with [Fail unreachable].

(** Every call is served, and the clock moves on by 2 ms after it is read
    for the first time. *)
Definition ticking : World := with_clock 100 [2] up.

(** The next call is served, the one after it is refused. *)
Definition down_after_one : World := backend_with [Succeed; Fail unreachable].

(** The next two calls are served, the third is refused. *)
Definition down_after_two : World := backend_with [Succeed; Succeed; Fail unreachable].

Definition march : Filters.t :=
  {| Filters.search := None; Filters.status := None; Filters.category := None;
     Filters.costCenter := None;
     Filters.dateRange :=
       Some {| from := Some (Js.ValidDate 6); to := Some (Js.ValidDate 9) |} |}.

Definition config : Env :=
  {| VITE_SUPABASE_URL := Some "https://example.supabase.co";
     VITE_SUPABASE_ANON_KEY := Some "anon" |}.

Definition signed_in (i : string) : option Session.t :=
  Some {| Session.user := Some {| User.id := i |} |}.

End Sample.

(** ** Vocabulary of the properties *)

(** A string made of white-space characters only, the empty string
    included. *)
Inductive whitespace_only : string -> Prop :=
| whitespace_nil : whitespace_only ""
| whitespace_cons (w s : string) :
    In w Js.white_space -> whitespace_only s -> whitespace_only (w ++ s).

(** The decision of [whitespace_only] (lemma [blank_whitespace_only]). *)
Definition blank (s : string) : bool := Js.all_space s.

(** A key that holds the empty string is left out. *)
Definition omit_if_empty (v : option string) : option string :=
  match v with
  | Some s => if (s =? "")%string then None else Some s
  | None => None
  end.

(** The filter object without the keys [status], [category] and
    [costCenter] that hold the empty string and without a [search] that is
    blank. *)
Definition omit_blank (filters : Filters.t) : Filters.t :=
  {| Filters.search :=
       match Filters.search filters with
       | Some s => if blank s then None else Some s
       | None => None
       end;
     Filters.status := omit_if_empty (Filters.status filters);
     Filters.category := omit_if_empty (Filters.category filters);
     Filters.costCenter := omit_if_empty (Filters.costCenter filters);
     Filters.dateRange := Filters.dateRange filters |}.

(** [e] matches the [search] text: any row does when the text is absent or
    blank; otherwise the row must pass the service's reading of the [or]
    filter on the trimmed text, [name] or [description] containing it,
    whatever the case. *)
Definition search_matches (w : World) (search : option string) (e : Expense.t) : bool :=
  match search with
  | Some s =>
      if blank s then true
      else or_filter w ("name.ilike.%" ++ Js.trim s ++ "%,description.ilike.%"
                        ++ Js.trim s ++ "%") e
  | None => true
  end.

(** [actual] is the value asked for in [v]; any value is when [v] is absent
    or the empty string. *)
Definition field_matches (v : option string) (actual : string) : bool :=
  match v with
  | Some s => (s =? "")%string || (actual =? s)%string
  | None => true
  end.

(** [e] passes the filters of [filters] other than the date range: the
    search text, the status, the category and the cost center. *)
Definition passes_filters (w : World) (filters : Filters.t) (e : Expense.t) : bool :=
  search_matches w (Filters.search filters) e
  && field_matches (Filters.status filters) (status_name (Expense.status e))
  && field_matches (Filters.category filters) (Expense.category_id e)
  && field_matches (Filters.costCenter filters) (Expense.cost_center_id e).

(** The submission date of [e] lies in [[a, b]], bounds included. *)
Definition in_range (a b : Z) (e : Expense.t) : bool :=
  match Expense.submitted_date e with
  | Some d => (a <=? d) && (d <=? b)
  | None => false
  end.

(** [x] was submitted no earlier than [y]. *)
Definition newer_first (x y : Expense.t) : Prop :=
  exists dx dy,
    Expense.submitted_date x = Some dx /\ Expense.submitted_date y = Some dy /\ dy <= dx.

Definition by_date_desc (x y : Expense.t) : bool :=
  time_le (Expense.submitted_date y) (Expense.submitted_date x).

Definition by_name (a b : Named.t) : Prop := name_le a b = true.

(** The invariant of an expense row: a rejection reason is stored only on a
    rejected expense. *)
Definition reason_only_if_rejected (e : Expense.t) : bool :=
  match Expense.rejection_reason e with
  | Some _ => Status_eqb (Expense.status e) rejected
  | None => true
  end.

(** The rejection reason [updateExpenseStatus] leaves on a row it updates. *)
Definition reason_after (status : Status) (rejectionReason : option string)
  (e : Expense.t) : option string :=
  if Status_eqb status rejected && Js.truthy_opt rejectionReason
  then rejectionReason else Expense.rejection_reason e.

(** The outcome planned for the upload of file number [i] when
    [createExpense] runs on [w]: the insertion of the expense takes the
    first outcome of the plan, the uploads the following ones, in the order
    of the files. *)
Definition upload_outcome (w : World) (i : nat) : Outcome :=
  nth i (tl (plan w)) Succeed.

(** The admin flag is the membership of ["admin"] in the role collection. *)
Definition roles_consistent (a : App) : Prop :=
  isAdmin a = Js.includes (userRoles a) "admin".

(** [evs] holds no auth event: the first one is still to be delivered. *)
Definition no_auth_event (evs : list Event) : bool :=
  forallb (fun ev => match ev with AuthEvent _ => false | _ => true end) evs.

(** ** Further operations of [src/lib/supabase.ts] *)

(** [.eq("id", id).single()] on the expense listing: the row with its
    embedded resources when exactly one expense matches, else the error
    PGRST116. *)
Definition serve_select_expense (id : string) (w : World)
  : Response ExpenseView.t * World :=
  match filter (fun e => has_id id (Expense.id e)) (expenses w) with
  | [e] => (answered (embed w e), w)
  | _ =>
      (failed {| code := "PGRST116";
                 message := "JSON object requested, multiple (or no) rows returned" |}, w)
  end.

(** [fetchExpenseById] has no [try]: the error is thrown as it comes. *)
Definition fetchExpenseById (id : string) : M World (option ExpenseView.t) :=
  r <- request (SelectExpenses {| clauses := [Eq "id" id]; order := None |})
         (serve_select_expense id) ;;
  unwrap r.

(** The storage path [upload_file] gives to file number [i]. *)
Definition upload_path (id : option string) (t : Z) (i : nat) (file : File.t) : string :=
  id_text id ++ "/" ++ Js.show t ++ "_" ++ Js.show (Z.of_nat i) ++ "."
  ++ Js.split_pop "." (File.name file) "".

(** The receipt record [upload_file] makes for file number [i]. *)
Definition receipt_for (id : option string) (t : Z) (i : nat) (file : File.t)
  : Receipt.t :=
  {| Receipt.id := None;
     Receipt.expense_id := id;
     Receipt.file_name := File.name file;
     Receipt.file_type := File.type file;
     Receipt.file_size := File.size file;
     Receipt.storage_path := upload_path id t i file;
     Receipt.created_at := None |}.

Fixpoint receipts_for (id : option string) (t : Z) (i : nat) (files : list File.t)
  : list Receipt.t :=
  match files with
  | [] => []
  | file :: files' => receipt_for id t i file :: receipts_for id t (S i) files'
  end.

(** The [k] first calls to come are served. *)
Definition served (k : nat) (w : World) : Prop :=
  forall i, (i < k)%nat -> nth i (plan w) Succeed = Succeed.

(** No table and no stored file differs between [w] and [w']. *)
Definition same_tables (w w' : World) : Prop :=
  expenses w' = expenses w /\ receipts w' = receipts w /\ users w' = users w /\
  categories w' = categories w /\ cost_centers w' = cost_centers w /\
  bucket w' = bucket w.

(** The filter object [filters] with its [search] key set to [s]. *)
Definition with_search (s : string) (filters : Filters.t) : Filters.t :=
  {| Filters.search := Some s; Filters.status := Filters.status filters;
     Filters.category := Filters.category filters;
     Filters.costCenter := Filters.costCenter filters;
     Filters.dateRange := Filters.dateRange filters |}.

(** The backend after the uploads of [files], numbered from [i], were all
    served: each call recorded, each file stored under its path. *)
Fixpoint uploaded (id : option string) (i : nat) (files : list File.t) (w : World)
  : World :=
  match files with
  | [] => w
  | file :: files' =>
      uploaded id (S i) files'
        (with_bucket (bucket w ++ [(upload_path id (now w) i file, file)])
           (issue (Upload (upload_path id (now w) i file) file) w))
  end.

(** Every call to come is served. *)
Definition healthy (w : World) : Prop := forall k, served k w.

Definition is_digit (c : ascii) : bool :=
  let n := nat_of_ascii c in ((48 <=? n) && (n <=? 57))%nat.

Fixpoint digits (s : string) : bool :=
  match s with
  | String c s' => is_digit c && digits s'
  | EmptyString => true
  end.

(** ** Vocabulary of the provider's properties *)

(** The row [fetchUserProfile] inserts for [userId] when the auth identity
    is [u]. *)
Definition default_profile (userId : string) (u : AuthUser.t) : Profile.t :=
  {| Profile.id := userId;
     Profile.name := Js.or_else (AuthUser.metadata_name u) (AuthUser.email u);
     Profile.email := AuthUser.email u;
     Profile.role := Some "user";
     Profile.roles := RolesArray ["user"] |}.


(** ** [signUp] *)

(** The calls of [signUp] that [Call] does not list: the creation of the
    credential and the update of the [roles] of a [users] row. *)
Inductive AuthCall :=
| SignUp (email password name : string)
| UpdateUserRoles (id : string) (roles : list string).

(** The backend as [signUp] meets it: the backend [base], the calls above
    in the order received, and the database trigger that may create the
    [users] rows of a new identity ([on_signup] gives the rows it adds,
    none when there is no trigger). *)
Record Portal := {
  base : World;
  auth_calls : list AuthCall;
  on_signup : AuthUser.t -> list Profile.t }.

Definition with_base (w : World) (p : Portal) : Portal :=
  {| base := w; auth_calls := auth_calls p; on_signup := on_signup p |}.

(** The head of the plan is used up by a call that [trace] does not
    record. *)
Definition use_outcome (w : World) : World :=
  {| expenses := expenses w; receipts := receipts w; users := users w;
     categories := categories w; cost_centers := cost_centers w;
     bucket := bucket w; auth_user := auth_user w; plan := tl (plan w);
     trace := trace w; settle_order := settle_order w;
     or_filter := or_filter w; now := now w;
     clock_steps := clock_steps w; next_id := next_id w |}.

Definition with_now (t : Z) (w : World) : World :=
  {| expenses := expenses w; receipts := receipts w; users := users w;
     categories := categories w; cost_centers := cost_centers w;
     bucket := bucket w; auth_user := auth_user w; plan := plan w;
     trace := trace w; settle_order := settle_order w;
     or_filter := or_filter w; now := t;
     clock_steps := clock_steps w; next_id := next_id w |}.

(** [await] of one of the calls of [AuthCall]. *)
Definition auth_request {A} (c : AuthCall) (serve : Portal -> Response A * Portal)
  : M Portal (Response A) :=
  fun p =>
    let p1 := {| base := use_outcome (base p); auth_calls := auth_calls p ++ [c];
                 on_signup := on_signup p |} in
    match next_outcome (base p) with
    | Succeed => let (r, p') := serve p1 in (Ok r, p')
    | Fail e => (Ok (failed e), p1)
    | Reject e => (Throw (ThrownBackend e), p1)
    end.

(** A call of [Call] made from [signUp]. *)
Definition base_call {A} (m : M World A) : M Portal A :=
  fun p => let (r, w) := m (base p) in (r, with_base w p).

(** The identity the auth service creates: a server-assigned id, the email
    and the name given as metadata. *)
Definition new_identity (email name : string) (p : Portal) : AuthUser.t :=
  {| AuthUser.id := fresh_id (base p); AuthUser.email := Some email;
     AuthUser.metadata_name := Some name |}.

(** [supabase.auth.signUp]: the identity is created and the trigger, if
    any, adds its rows to [users]. [data] is [data.user]. *)
Definition serve_sign_up (email name : string) (p : Portal)
  : Response AuthUser.t * Portal :=
  let u := new_identity email name p in
  (answered u,
   with_base
     (with_next_id (S (next_id (base p)))
        (with_users (users (base p) ++ on_signup p u) (base p))) p).

Definition set_roles (roles : list string) (q : Profile.t) : Profile.t :=
  {| Profile.id := Profile.id q; Profile.name := Profile.name q;
     Profile.email := Profile.email q; Profile.role := Profile.role q;
     Profile.roles := RolesArray roles |}.

(** [.from("users").update({ roles }).eq("id", id)] *)
Definition serve_update_roles (id : string) (roles : list string) (p : Portal)
  : Response unit * Portal :=
  (answered tt,
   with_base
     (with_users
        (map (fun q => if (Profile.id q =? id)%string then set_roles roles q else q)
           (users (base p))) (base p)) p).

(** [await new Promise((resolve) => setTimeout(resolve, ms))] *)
Definition sleep (ms : Z) : M Portal unit :=
  modify (fun p => with_base (with_now (now (base p) + ms) (base p)) p).

(** The object [signUp] returns; [su_error] is the error object of the auth
    call or the exception caught. *)
Record SignUpResult := {
  su_data : option AuthUser.t;
  su_error : option Exn }.

Definition signUp (email password name role : string) : M Portal SignUpResult :=
  try_catch
    (r <- auth_request (SignUp email password name) (serve_sign_up email name) ;;
     match error r with
     | Some error => ret {| su_data := None; su_error := Some (ThrownBackend error) |}
     | None =>
         match data r with
         | Some u =>
             sleep 100 ;;
             found <- base_call (request (SelectUser (AuthUser.id u))
                                   (serve_select_user (AuthUser.id u))) ;;
             match error found with
             | Some profileError =>
                 let row :=
                   {| Profile.id := AuthUser.id u; Profile.name := Some name;
                      Profile.email := Some email; Profile.role := None;
                      Profile.roles := RolesArray [role] |} in
                 inserted <- base_call (request (InsertUser row) (serve_insert_user row)) ;;
                 ret tt
             | None =>
                 auth_request (UpdateUserRoles (AuthUser.id u) [role])
                   (serve_update_roles (AuthUser.id u) [role]) ;;
                 ret tt
             end
         | None => ret tt
         end ;;
         ret {| su_data := data r; su_error := None |}
     end)
    (fun err => ret {| su_data := None; su_error := Some err |}).

(** The row [signUp] inserts for identity [u]. *)
Definition signup_profile (u : AuthUser.t) (email name role : string) : Profile.t :=
  {| Profile.id := AuthUser.id u; Profile.name := Some name;
     Profile.email := Some email; Profile.role := None;
     Profile.roles := RolesArray [role] |}.

(** Two portals over the sample backend: without trigger, and with a
    trigger that creates the [users] row of a new identity with the role
    ["user"]. *)
Module Portals.

Definition plain : Portal :=
  {| base := Sample.up; auth_calls := []; on_signup := fun _ => [] |}.

Definition triggered : Portal :=
  {| base := Sample.up; auth_calls := [];
     on_signup := fun u =>
       [{| Profile.id := AuthUser.id u; Profile.name := AuthUser.metadata_name u;
           Profile.email := AuthUser.email u; Profile.role := Some "user";
           Profile.roles := RolesArray ["user"] |}] |}.


(** The sign-up and the read are served, the insertion is refused. *)
Definition no_insert : Portal :=
  {| base := Sample.down_after_two; auth_calls := []; on_signup := fun _ => [] |}.

End Portals.

(** * Properties *)

(** ** White space *)

Lemma strip_prefix_app (w s r : string) : Js.strip_prefix w s = Some r -> s = (w ++ r)%string.
Proof.
  revert s. induction w as [|a w IH]; intros s H; simpl in H.
  - injection H as ->. reflexivity.
  - destruct s as [|b s]; [discriminate |].
    destruct (Ascii.eqb a b) eqn:Hab; [| discriminate].
    apply Ascii.eqb_eq in Hab. subst b. simpl. f_equal. apply IH, H.
Qed.

Lemma strip_first_app (ws : list string) (s r : string) :
  Js.strip_first ws s = Some r -> exists w, In w ws /\ s = (w ++ r)%string.
Proof.
  induction ws as [|w ws IH]; simpl; [discriminate |].
  destruct (Js.strip_prefix w s) as [r'|] eqn:Hw.
  - intros [= ->]. exists w. split; [left; reflexivity | apply strip_prefix_app, Hw].
  - intros H. destruct (IH H) as (w' & Hin & Hs). exists w'. split; [right; exact Hin | exact Hs].
Qed.

Lemma after_space_app (s r : string) :
  Js.after_space s = Some r -> exists w, In w Js.white_space /\ s = (w ++ r)%string.
Proof. apply strip_first_app. Qed.

Lemma after_space_white (w s : string) :
  In w Js.white_space -> Js.after_space (w ++ s) = Some s.
Proof.
  intros H. unfold Js.white_space in H. cbn [map] in H.
  repeat (destruct H as [<- | H]; [reflexivity |]).
  destruct H.
Qed.

Lemma white_space_length (w : string) : In w Js.white_space -> (1 <= String.length w)%nat.
Proof.
  intros H. unfold Js.white_space in H. cbn [map] in H.
  repeat (destruct H as [<- | H]; [simpl; lia |]).
  destruct H.
Qed.

Lemma append_length (a b : string) :
  String.length (a ++ b) = (String.length a + String.length b)%nat.
Proof. induction a as [|c a IH]; simpl; [reflexivity | rewrite IH; reflexivity]. Qed.

Lemma append_assoc (a b c : string) : ((a ++ b) ++ c = a ++ (b ++ c))%string.
Proof. induction a as [|x a IH]; simpl; [reflexivity | rewrite IH; reflexivity]. Qed.

Lemma append_empty (a : string) : (a ++ "")%string = a.
Proof. induction a as [|x a IH]; simpl; [reflexivity | rewrite IH; reflexivity]. Qed.

Lemma after_space_shorter (s r : string) :
  Js.after_space s = Some r -> (String.length r < String.length s)%nat.
Proof.
  intros H. destruct (after_space_app s r H) as (w & Hw & ->).
  rewrite append_length. apply white_space_length in Hw. lia.
Qed.

Lemma trim_start_upto_enough (n m : nat) (s : string) :
  (String.length s <= n)%nat -> (String.length s <= m)%nat ->
  Js.trim_start_upto n s = Js.trim_start_upto m s.
Proof.
  revert m s. induction n as [|n IH]; intros m s Hn Hm.
  - destruct s; [| simpl in Hn; lia]. destruct m; reflexivity.
  - destruct m as [|m].
    + destruct s; [| simpl in Hm; lia]. reflexivity.
    + simpl. destruct (Js.after_space s) as [r|] eqn:Hr; [| reflexivity].
      apply after_space_shorter in Hr. apply IH; lia.
Qed.

(** [trimStart] strips one white-space character and goes on, and stops at
    a string that starts with none. *)
Lemma trim_start_step (s : string) :
  Js.trim_start s =
  match Js.after_space s with Some r => Js.trim_start r | None => s end.
Proof.
  unfold Js.trim_start. destruct s as [|c s]; [reflexivity |].
  cbn [String.length Js.trim_start_upto].
  destruct (Js.after_space (String c s)) as [r|] eqn:Hr; [| reflexivity].
  apply after_space_shorter in Hr. simpl in Hr.
  apply trim_start_upto_enough; lia.
Qed.

Lemma trim_start_white (w s : string) :
  In w Js.white_space -> Js.trim_start (w ++ s) = Js.trim_start s.
Proof. intros H. rewrite trim_start_step, (after_space_white w s H). reflexivity. Qed.

Lemma by_length (P : string -> Prop) :
  (forall s, (forall r, (String.length r < String.length s)%nat -> P r) -> P s) ->
  forall s, P s.
Proof.
  intros H s. remember (String.length s) as n eqn:Hn.
  revert s Hn. induction n as [n IH] using lt_wf_ind.
  intros s ->. apply H. intros r Hr. apply (IH _ Hr r eq_refl).
Qed.

Lemma trim_start_split (s : string) :
  exists t, whitespace_only t /\ s = (t ++ Js.trim_start s)%string /\
            Js.after_space (Js.trim_start s) = None.
Proof.
  induction s as [s IH] using by_length.
  rewrite trim_start_step.
  destruct (Js.after_space s) as [r|] eqn:Hr.
  - destruct (after_space_app s r Hr) as (w & Hw & ->).
    destruct (IH r (after_space_shorter _ _ Hr)) as (t & Ht & Hs & Hn).
    exists (w ++ t)%string. split; [constructor; assumption |].
    split; [| exact Hn]. rewrite append_assoc, <- Hs. reflexivity.
  - exists ""%string. split; [constructor |]. split; [reflexivity | exact Hr].
Qed.

Lemma whitespace_only_trim_start (s : string) : whitespace_only s -> Js.trim_start s = "".
Proof.
  induction 1 as [|w s Hw Hs IH]; [reflexivity |].
  rewrite trim_start_white; assumption.
Qed.

(** A string is blank when it is a sequence of white-space characters. *)
Lemma blank_whitespace_only (s : string) : blank s = true <-> whitespace_only s.
Proof.
  unfold blank, Js.all_space. rewrite String.eqb_eq. split.
  - intros H. destruct (trim_start_split s) as (t & Ht & Hs & _).
    rewrite H, append_empty in Hs. subst t. exact Ht.
  - apply whitespace_only_trim_start.
Qed.

Lemma whitespace_only_app (a b : string) :
  whitespace_only a -> whitespace_only b -> whitespace_only (a ++ b).
Proof.
  induction 1 as [|w s Hw Hs IH]; intros Hb; [exact Hb |].
  rewrite append_assoc. constructor; [exact Hw | apply IH, Hb].
Qed.

Lemma trim_end_split (s : string) :
  exists t, whitespace_only t /\ s = (Js.trim_end s ++ t)%string.
Proof.
  induction s as [|c s IH].
  - exists ""%string. split; [constructor | reflexivity].
  - cbn [Js.trim_end]. destruct (Js.all_space (String c s)) eqn:Hc.
    + exists (String c s). split; [apply blank_whitespace_only, Hc | reflexivity].
    + destruct IH as (t & Ht & Hs). exists t. split; [exact Ht |].
      simpl. f_equal. exact Hs.
Qed.

Lemma trim_end_idempotent (s : string) : Js.trim_end (Js.trim_end s) = Js.trim_end s.
Proof.
  induction s as [|c s IH]; [reflexivity |].
  cbn [Js.trim_end]. destruct (Js.all_space (String c s)) eqn:Hc; [reflexivity |].
  cbn [Js.trim_end].
  destruct (Js.all_space (String c (Js.trim_end s))) eqn:Hd.
  - destruct (trim_end_split s) as (t & Ht & Hs).
    assert (Hw : whitespace_only (String c s)).
    { rewrite Hs. change (whitespace_only (String c (Js.trim_end s) ++ t)).
      apply whitespace_only_app; [apply blank_whitespace_only, Hd | exact Ht]. }
    apply blank_whitespace_only in Hw. unfold blank in Hw. congruence.
  - rewrite IH. reflexivity.
Qed.

Lemma trim_end_after_space (s : string) :
  Js.after_space s = None -> Js.after_space (Js.trim_end s) = None.
Proof.
  intros H. destruct (Js.after_space (Js.trim_end s)) as [r|] eqn:Hr; [| reflexivity].
  destruct (after_space_app _ _ Hr) as (w & Hw & He).
  destruct (trim_end_split s) as (t & _ & Hs).
  rewrite He, append_assoc in Hs. rewrite Hs, (after_space_white w _ Hw) in H.
  discriminate.
Qed.

Lemma trim_idempotent (s : string) : Js.trim (Js.trim s) = Js.trim s.
Proof.
  unfold Js.trim.
  destruct (trim_start_split s) as (_ & _ & _ & Hn).
  apply trim_end_after_space in Hn.
  rewrite (trim_start_step (Js.trim_end _)), Hn.
  apply trim_end_idempotent.
Qed.

Lemma trim_truthy (s : string) : Js.truthy (Js.trim s) = true -> Js.truthy s = true.
Proof. destruct s; [discriminate | reflexivity]. Qed.

Lemma trim_blank (s : string) : blank s = true -> Js.trim s = "".
Proof.
  unfold blank, Js.all_space, Js.trim. rewrite String.eqb_eq. intros ->. reflexivity.
Qed.

Lemma trim_not_blank (s : string) : blank s = false -> Js.trim s <> "".
Proof.
  unfold Js.trim. intros Hb He.
  destruct (trim_start_split s) as (t & Ht & Hs & _).
  destruct (trim_end_split (Js.trim_start s)) as (u & Hu & Hs').
  rewrite He in Hs'. simpl in Hs'. rewrite Hs' in Hs.
  assert (Hw : whitespace_only s) by (rewrite Hs; apply whitespace_only_app; assumption).
  apply blank_whitespace_only in Hw. congruence.
Qed.

(** An em space (U+2003) before, an ideographic space (U+3000) and a line
    feed after. *)
Example trim_em_space :
  Js.trim (Js.bytes [226; 128; 131; 97; 32; 98; 227; 128; 128; 10]%nat) = "a b".
Proof. reflexivity. Qed.

(** ** Sorting *)

Section SortFacts.
Context {A : Type} (le : A -> A -> bool).
Hypothesis le_total : forall x y, le x y = false -> le y x = true.

Let R (x y : A) : Prop := le x y = true.

Lemma insert_sorted_perm (x : A) (l : list A) :
  Permutation (insert_sorted le x l) (x :: l).
Proof.
  induction l as [|y l IH]; simpl.
  - apply Permutation_refl.
  - destruct (le x y).
    + apply Permutation_refl.
    + eapply Permutation_trans; [apply perm_skip, IH | apply perm_swap].
Qed.

Lemma sort_by_perm (l : list A) : Permutation (sort_by le l) l.
Proof.
  induction l as [|x l IH]; simpl.
  - constructor.
  - eapply Permutation_trans; [apply insert_sorted_perm | apply perm_skip, IH].
Qed.

Lemma insert_sorted_HdRel (a x : A) (l : list A) :
  R a x -> HdRel R a l -> HdRel R a (insert_sorted le x l).
Proof.
  intros Hax Hal. destruct l as [|y l]; simpl.
  - constructor. exact Hax.
  - destruct (le x y); constructor.
    + exact Hax.
    + inversion Hal; assumption.
Qed.

Lemma insert_sorted_Sorted (x : A) (l : list A) :
  Sorted R l -> Sorted R (insert_sorted le x l).
Proof.
  induction 1 as [|y l Hs IH Hd]; simpl.
  - repeat constructor.
  - destruct (le x y) eqn:Hxy.
    + constructor; [constructor; assumption | constructor; exact Hxy].
    + constructor; [exact IH |].
      apply insert_sorted_HdRel; [apply le_total; exact Hxy | exact Hd].
Qed.

Lemma sort_by_Sorted (l : list A) : Sorted R (sort_by le l).
Proof.
  induction l as [|x l IH]; simpl.
  - constructor.
  - apply insert_sorted_Sorted, IH.
Qed.
End SortFacts.

Lemma time_le_total (a b : option Z) : time_le a b = false -> time_le b a = true.
Proof.
  destruct a as [x|], b as [y|]; simpl; intros H; try reflexivity; try discriminate.
  apply Z.leb_gt in H. apply Z.leb_le. lia.
Qed.

Lemma name_le_total (a b : Named.t) : name_le a b = false -> name_le b a = true.
Proof.
  unfold name_le. intros H.
  destruct (String.leb_total (Named.name a) (Named.name b)) as [H'|H'].
  - rewrite H' in H. discriminate.
  - exact H'.
Qed.

(** ** Listing expenses *)

Lemma selected_add_clause (w : World) (q : Query) (c : Clause) (e : Expense.t) :
  selected w (add_clause c q) e = selected w q e && clause_holds w c e.
Proof.
  unfold selected, add_clause; simpl.
  rewrite forallb_app; simpl. rewrite andb_true_r. reflexivity.
Qed.

Lemma map_expense_embed (w : World) (l : list Expense.t) :
  map ExpenseView.expense (map (embed w) l) = l.
Proof.
  induction l as [|e l IH]; simpl; [reflexivity | rewrite IH; reflexivity].
Qed.

Lemma by_date_desc_trans (x y z : Expense.t) :
  by_date_desc x y = true -> by_date_desc y z = true -> by_date_desc x z = true.
Proof.
  unfold by_date_desc, time_le.
  destruct (Expense.submitted_date x), (Expense.submitted_date y),
    (Expense.submitted_date z); intros H1 H2; try reflexivity; try discriminate.
  apply Z.leb_le in H1, H2. apply Z.leb_le. lia.
Qed.

Lemma dated_sorted_newer_first (a b : Z) (l : list Expense.t) :
  Forall (fun e => in_range a b e = true) l ->
  Sorted (fun x y => by_date_desc x y = true) l ->
  StronglySorted newer_first l.
Proof.
  intros Hall Hs.
  apply Sorted_StronglySorted in Hs;
    [| intros x y z; apply by_date_desc_trans].
  induction Hs as [|x l Hs IH Hx]; constructor.
  - apply IH. inversion Hall; assumption.
  - inversion Hall as [|? ? Hxr Hl]; subst.
    rewrite Forall_forall in *. intros y Hy.
    specialize (Hx y Hy). specialize (Hl y Hy).
    unfold in_range in Hxr, Hl. unfold by_date_desc, time_le in Hx.
    destruct (Expense.submitted_date x) as [dx|] eqn:Ex; [| discriminate].
    destruct (Expense.submitted_date y) as [dy|] eqn:Ey; [| discriminate].
    exists dx, dy. split; [exact Ex | split; [exact Ey |]].
    apply Z.leb_le. exact Hx.
Qed.

Lemma expenses_query_dated (filters : Filters.t) (a b : Z) :
  Filters.dateRange filters
    = Some {| from := Some (Js.ValidDate a); to := Some (Js.ValidDate b) |} ->
  expenses_query filters
    = Ok (set_order "submitted_date" false
            (add_clause (Lte "submitted_date" b)
               (add_clause (Gte "submitted_date" a) (text_filters filters)))).
Proof.
  intros H. unfold expenses_query, dateRange_from, dateRange_to.
  rewrite H. reflexivity.
Qed.

(** The clauses of [text_filters] select the rows that pass the filters. *)
Lemma search_active_not_blank (filters : Filters.t) (s : string) :
  Filters.search filters = Some s -> search_active filters = negb (blank s).
Proof.
  intros H. unfold search_active, Js.truthy. rewrite H.
  destruct (blank s) eqn:Hb.
  - rewrite (trim_blank s Hb). apply andb_false_r.
  - apply trim_not_blank in Hb. apply String.eqb_neq in Hb. rewrite Hb.
    destruct s; [discriminate | reflexivity].
Qed.

Lemma field_clause (w : World) (q : Query) (v : option string) (column actual : string)
  (e : Expense.t) :
  text_column column e = Some actual ->
  selected w (if field_active v then add_clause (Eq column (text_of v)) q else q) e
  = selected w q e && field_matches v actual.
Proof.
  intros Hc. unfold field_active, field_matches, Js.truthy.
  destruct v as [s|]; [| rewrite andb_true_r; reflexivity].
  destruct (s =? "")%string; cbn [negb andb orb text_of].
  - rewrite andb_true_r. reflexivity.
  - rewrite selected_add_clause. cbn [clause_holds]. rewrite Hc. reflexivity.
Qed.

Lemma selected_text_filters (w : World) (filters : Filters.t) (e : Expense.t) :
  selected w (text_filters filters) e = passes_filters w filters e.
Proof.
  unfold text_filters, passes_filters.
  rewrite (field_clause w _ _ "cost_center_id" (Expense.cost_center_id e)) by reflexivity.
  rewrite (field_clause w _ _ "category_id" (Expense.category_id e)) by reflexivity.
  rewrite (field_clause w _ _ "status" (status_name (Expense.status e))) by reflexivity.
  do 3 f_equal.
  unfold search_matches.
  destruct (Filters.search filters) as [s|] eqn:Hs.
  - rewrite (search_active_not_blank filters s Hs).
    destruct (blank s); cbn [negb text_of]; [reflexivity |].
    rewrite selected_add_clause. reflexivity.
  - unfold search_active. rewrite Hs. reflexivity.
Qed.

(** C7. With both date bounds given (valid dates) and a backend that serves
    the read, [fetchExpenses] returns exactly the rows of [expenses] that
    pass the other active filters and whose [submitted_date] lies in
    [[from, to]], bounds included, most recent first.  The other filters
    are read off the filter object: a search text that is not blank, and a
    status, a category and a cost center that are not empty. *)
Theorem fetchExpenses_date_range (filters : Filters.t) (a b : Z) (w : World) :
  Filters.dateRange filters
    = Some {| from := Some (Js.ValidDate a); to := Some (Js.ValidDate b) |} ->
  next_outcome w = Succeed ->
  exists rows,
    fst (fetchExpenses filters w) = Ok rows /\
    Permutation (map ExpenseView.expense rows)
      (filter (fun e => passes_filters w filters e && in_range a b e) (expenses w)) /\
    StronglySorted newer_first (map ExpenseView.expense rows).
Proof.
  intros Hd Hok.
  unfold fetchExpenses, try_catch, bind, lift_res, request.
  rewrite (expenses_query_dated filters a b Hd), Hok.
  cbn [serve_select_expenses unwrap error answered data ret fst].
  eexists; split; [reflexivity |].
  rewrite map_expense_embed.
  set (q := set_order _ _ _).
  set (w' := issue _ w).
  assert (Hsel : forall e, selected w' q e
                 = passes_filters w filters e && in_range a b e).
  { intros e. rewrite <- selected_text_filters. subst q. unfold set_order.
    change (selected w' _ e) with
      (selected w' (add_clause (Lte "submitted_date" b)
         (add_clause (Gte "submitted_date" a) (text_filters filters))) e).
    rewrite !selected_add_clause. rewrite <- andb_assoc. f_equal.
    unfold in_range. cbn. destruct (Expense.submitted_date e); reflexivity. }
  assert (Hfil : filter (selected w' q) (expenses w')
                 = filter (fun e => passes_filters w filters e && in_range a b e)
                     (expenses w)).
  { apply filter_ext. exact Hsel. }
  rewrite Hfil.
  assert (Hord : forall l, ordered q l = sort_by by_date_desc l) by reflexivity.
  rewrite Hord. split.
  - apply sort_by_perm.
  - apply (dated_sorted_newer_first a b).
    + rewrite Forall_forall. intros e He.
      apply (Permutation_in _ (sort_by_perm by_date_desc _)) in He.
      apply filter_In in He. destruct He as [_ He].
      apply andb_true_iff in He. apply He.
    + apply sort_by_Sorted. intros x y. unfold by_date_desc. apply time_le_total.
Qed.

Lemma fetchExpenses_date_range_sample :
  exists rows,
    fst (fetchExpenses Sample.march Sample.up) = Ok rows /\
    Permutation (map ExpenseView.expense rows)
      (filter (fun e => passes_filters Sample.up Sample.march e && in_range 6 9 e)
         (expenses Sample.up)) /\
    StronglySorted newer_first (map ExpenseView.expense rows).
Proof.
  apply (fetchExpenses_date_range Sample.march 6 9 Sample.up); reflexivity.
Defined.

(** An instance with a status as well: of the approved expenses of the
    sample backend, one was submitted between 6 and 9. *)
Example approved_in_range_sample :
  exists rows,
    fst (fetchExpenses
           {| Filters.search := Some "  "; Filters.status := Some "approved";
              Filters.category := Some ""; Filters.costCenter := None;
              Filters.dateRange := Filters.dateRange Sample.march |}
           Sample.up) = Ok rows /\
    map (fun r => Expense.id (ExpenseView.expense r)) rows = [Some "c"].
Proof. eexists; split; [vm_compute; reflexivity | reflexivity]. Qed.

(** Without a status, two were. *)
Example in_range_sample :
  exists rows,
    fst (fetchExpenses Sample.march Sample.up) = Ok rows /\
    map (fun r => Expense.id (ExpenseView.expense r)) rows = [Some "b"; Some "c"].
Proof. eexists; split; [vm_compute; reflexivity | reflexivity]. Qed.

(** C5, as the source has it. When the query was built and the backend
    refuses the read (an [error] answer or a rejected promise),
    [fetchExpenses] raises that error: the [catch] block throws it again.
    The backend is left as it was, the call recorded. *)
Theorem fetchExpenses_failure_raises (filters : Filters.t) (q : Query) (w : World)
  (e : BackendError) :
  expenses_query filters = Ok q ->
  next_outcome w = Fail e \/ next_outcome w = Reject e ->
  fetchExpenses filters w = (Throw (ThrownBackend e), issue (SelectExpenses q) w).
Proof.
  intros Hq [Ho | Ho];
    unfold fetchExpenses, try_catch, bind, lift_res, request;
    rewrite Hq, Ho; reflexivity.
Qed.

Lemma fetchExpenses_failure_raises_sample :
  fetchExpenses noFilters Sample.down
  = (Throw (ThrownBackend Sample.unreachable),
     issue (SelectExpenses {| clauses := []; order := Some ("submitted_date", false) |})
       Sample.down).
Proof.
  apply (fetchExpenses_failure_raises noFilters _ Sample.down Sample.unreachable).
  - reflexivity.
  - left. reflexivity.
Defined.

(** C5 as stated fails: on the default filters and a backend that answers
    the read with an error, the result is the error raised, not the empty
    sequence. *)
Lemma fetchExpenses_failure_not_empty :
  (exists q, expenses_query noFilters = Ok q) /\
  next_outcome Sample.down = Fail Sample.unreachable /\
  fst (fetchExpenses noFilters Sample.down) = Throw (ThrownBackend Sample.unreachable) /\
  fst (fetchExpenses noFilters Sample.down) <> Ok [].
Proof.
  split; [eexists; reflexivity |].
  split; [reflexivity |].
  split; [reflexivity |].
  discriminate.
Qed.

(** ** Reference lists *)

(** C8. [fetchCategories] and [fetchCostCenters] never raise: when the read
    is refused they return the empty sequence, and when it is served they
    return all the rows of the table in the order of their names. *)
Theorem reference_lists_swallow_errors (w : World) :
  (next_outcome w = Succeed ->
   exists cats ccs,
     fst (fetchCategories w) = Ok cats /\
     Permutation cats (categories w) /\ Sorted by_name cats /\
     fst (fetchCostCenters w) = Ok ccs /\
     Permutation ccs (cost_centers w) /\ Sorted by_name ccs) /\
  (next_outcome w <> Succeed ->
   fst (fetchCategories w) = Ok [] /\ fst (fetchCostCenters w) = Ok []).
Proof.
  split.
  - intros Ho.
    exists (sort_by name_le (categories w)), (sort_by name_le (cost_centers w)).
    unfold fetchCategories, fetchCostCenters, try_catch, bind, request.
    rewrite Ho. cbn.
    repeat split;
      try apply sort_by_perm;
      apply sort_by_Sorted; exact name_le_total.
  - intros Ho.
    unfold fetchCategories, fetchCostCenters, try_catch, bind, request.
    destruct (next_outcome w); [congruence | split; reflexivity ..].
Qed.

Lemma reference_lists_swallow_errors_sample :
  (exists cats ccs,
     fst (fetchCategories Sample.up) = Ok cats /\
     Permutation cats (categories Sample.up) /\ Sorted by_name cats /\
     fst (fetchCostCenters Sample.up) = Ok ccs /\
     Permutation ccs (cost_centers Sample.up) /\ Sorted by_name ccs) /\
  fst (fetchCategories Sample.down) = Ok [] /\
  fst (fetchCostCenters Sample.down) = Ok [].
Proof.
  split.
  - apply (proj1 (reference_lists_swallow_errors Sample.up)). reflexivity.
  - apply (proj2 (reference_lists_swallow_errors Sample.down)). discriminate.
Defined.

(** ** Blank filters *)

Lemma search_active_omit_blank (filters : Filters.t) :
  search_active (omit_blank filters) = search_active filters /\
  (search_active filters = true ->
   Filters.search (omit_blank filters) = Filters.search filters).
Proof.
  unfold search_active, omit_blank; simpl.
  destruct (Filters.search filters) as [s|]; [| split; reflexivity].
  destruct (blank s) eqn:Hb; [| split; reflexivity].
  rewrite (trim_blank s Hb). simpl. rewrite andb_false_r.
  split; [reflexivity | discriminate].
Qed.

Lemma field_active_omit_if_empty (v : option string) :
  field_active (omit_if_empty v) = field_active v /\
  (field_active v = true -> omit_if_empty v = v).
Proof.
  unfold field_active, omit_if_empty, Js.truthy.
  destruct v as [s|]; [| split; reflexivity].
  destruct (s =? "")%string eqn:Hs; simpl.
  - split; [reflexivity | discriminate].
  - rewrite Hs. split; reflexivity.
Qed.

Lemma text_filters_omit_blank (filters : Filters.t) :
  text_filters (omit_blank filters) = text_filters filters.
Proof.
  unfold text_filters.
  destruct (search_active_omit_blank filters) as [Hs Hs'].
  rewrite Hs.
  destruct (field_active_omit_if_empty (Filters.status filters)) as [Ht Ht'].
  destruct (field_active_omit_if_empty (Filters.category filters)) as [Hc Hc'].
  destruct (field_active_omit_if_empty (Filters.costCenter filters)) as [Hk Hk'].
  cbn [omit_blank Filters.status Filters.category Filters.costCenter].
  rewrite Ht, Hc, Hk.
  destruct (search_active filters);
    [rewrite (Hs' eq_refl) |];
    (destruct (field_active (Filters.status filters)); [rewrite (Ht' eq_refl) |]);
    (destruct (field_active (Filters.category filters)); [rewrite (Hc' eq_refl) |]);
    (destruct (field_active (Filters.costCenter filters)); [rewrite (Hk' eq_refl) |]);
    reflexivity.
Qed.

(** C10. A [status], [category] or [costCenter] that is the empty string
    and a [search] that is empty or made of white space only count as
    absent: the query built, and so the whole run of [fetchExpenses] on any
    backend, is the one of the filter object without those keys.  White
    space is the one [trim] strips: a blank string is a sequence of the
    WhiteSpace and LineTerminator characters of ECMAScript, those beyond
    ASCII included. *)
Theorem fetchExpenses_ignores_blank_filters (filters : Filters.t) :
  expenses_query filters = expenses_query (omit_blank filters) /\
  (forall w, fetchExpenses filters w = fetchExpenses (omit_blank filters) w) /\
  (forall s, blank s = true <-> whitespace_only s).
Proof.
  assert (H : expenses_query filters = expenses_query (omit_blank filters)).
  { unfold expenses_query, dateRange_from, dateRange_to.
    rewrite text_filters_omit_blank. reflexivity. }
  split; [exact H |]. split; [| exact blank_whitespace_only].
  intros w. unfold fetchExpenses. rewrite H. reflexivity.
Qed.

(** An instance: four blank fields against the default filters. *)
Example blank_filters_sample :
  expenses_query
    {| Filters.search := Some "   "; Filters.status := Some "";
       Filters.category := Some ""; Filters.costCenter := Some "";
       Filters.dateRange := None |}
  = expenses_query noFilters.
Proof. reflexivity. Qed.

(** A search of an em space (U+2003), a no-break space (U+00A0) and a tab
    is blank as well. *)
Example blank_unicode_sample :
  expenses_query
    {| Filters.search := Some (Js.bytes [226; 128; 131; 194; 160; 9]%nat);
       Filters.status := None; Filters.category := None;
       Filters.costCenter := None; Filters.dateRange := None |}
  = expenses_query noFilters.
Proof. reflexivity. Qed.

(** ** Deleting an expense *)

Lemma has_id_true (i : string) (o : option string) : has_id i o = true <-> o = Some i.
Proof.
  destruct o as [j|]; simpl.
  - rewrite String.eqb_eq. split; [intros ->; reflexivity | intros [= ->]; reflexivity].
  - split; discriminate.
Qed.

Lemma has_id_false (i : string) (o : option string) :
  negb (has_id i o) = true <-> o <> Some i.
Proof.
  rewrite negb_true_iff, <- not_true_iff_false, has_id_true. reflexivity.
Qed.

(** C3. [deleteExpense id] asks for the deletion of the receipts of [id]
    first. When that call is refused, the error is raised, no other call is
    made and the tables are as before: the expense row is still there. When
    it is served, every receipt of [id] is gone and only then is the
    deletion of the expense row asked for; the row is removed when that
    second call is served, and kept, with the error raised, when it is
    refused. *)
Theorem deleteExpense_receipts_first (id : string) (w : World) :
  (forall e, next_outcome w = Fail e \/ next_outcome w = Reject e ->
     fst (deleteExpense id w) = Throw (ThrownBackend e) /\
     expenses (snd (deleteExpense id w)) = expenses w /\
     receipts (snd (deleteExpense id w)) = receipts w /\
     trace (snd (deleteExpense id w)) = (trace w ++ [DeleteReceipts id])%list) /\
  (next_outcome w = Succeed ->
     (forall r, In r (receipts (snd (deleteExpense id w)))
                <-> In r (receipts w) /\ Receipt.expense_id r <> Some id) /\
     trace (snd (deleteExpense id w))
     = (trace w ++ [DeleteReceipts id; DeleteExpense id])%list /\
     (next_outcome (issue (DeleteReceipts id) w) = Succeed ->
        fst (deleteExpense id w) = Ok true /\
        forall x, In x (expenses (snd (deleteExpense id w)))
                  <-> In x (expenses w) /\ Expense.id x <> Some id) /\
     (forall e, next_outcome (issue (DeleteReceipts id) w) = Fail e \/
                next_outcome (issue (DeleteReceipts id) w) = Reject e ->
        fst (deleteExpense id w) = Throw (ThrownBackend e) /\
        expenses (snd (deleteExpense id w)) = expenses w)).
Proof.
  split.
  - intros e [Ho | Ho];
      unfold deleteExpense, try_catch, bind, request; rewrite Ho;
      cbn; rewrite <- ?app_assoc; repeat split; reflexivity.
  - intros Ho.
    unfold deleteExpense, try_catch, bind, request. rewrite Ho.
    cbn [serve_delete_receipts error answered failed].
    set (w1 := with_receipts _ (issue (DeleteReceipts id) w)).
    assert (Hnext : next_outcome w1 = next_outcome (issue (DeleteReceipts id) w))
      by reflexivity.
    rewrite <- Hnext.
    assert (Hrec : forall r, In r (receipts w1)
                   <-> In r (receipts w) /\ Receipt.expense_id r <> Some id).
    { intros r. subst w1. cbn. rewrite filter_In, has_id_false. reflexivity. }
    destruct (next_outcome w1) eqn:Ho1; cbn; rewrite <- ?app_assoc; cbn;
      (split; [intros r; apply Hrec |]); (split; [reflexivity |]); split.
    + intros _. split; [reflexivity |].
      intros x. rewrite filter_In, has_id_false. reflexivity.
    + intros e [He | He]; discriminate.
    + discriminate.
    + intros e0 [He | He]; [| discriminate]. injection He as <-. split; reflexivity.
    + discriminate.
    + intros e0 [He | He]; [discriminate |]. injection He as <-. split; reflexivity.
Qed.

Lemma deleteExpense_receipts_first_sample :
  (fst (deleteExpense "a" Sample.down) = Throw (ThrownBackend Sample.unreachable) /\
   expenses (snd (deleteExpense "a" Sample.down)) = expenses Sample.down /\
   receipts (snd (deleteExpense "a" Sample.down)) = receipts Sample.down /\
   trace (snd (deleteExpense "a" Sample.down)) = [DeleteReceipts "a"]) /\
  (fst (deleteExpense "a" Sample.up) = Ok true /\
   forall x, In x (expenses (snd (deleteExpense "a" Sample.up)))
             <-> In x (expenses Sample.up) /\ Expense.id x <> Some "a").
Proof.
  split.
  - apply (proj1 (deleteExpense_receipts_first "a" Sample.down) Sample.unreachable).
    left. reflexivity.
  - apply (proj2 (deleteExpense_receipts_first "a" Sample.up) eq_refl).
    reflexivity.
Defined.

(** ** Status updates and the rejection reason *)

Lemma update_rows_invariant (i : string) (u : UpdateData) (rows : list Expense.t) :
  Forall (fun e => reason_only_if_rejected e = true) rows ->
  (forall e, In e rows -> Expense.id e = Some i ->
             reason_only_if_rejected (apply_update u e) = true) ->
  Forall (fun e => reason_only_if_rejected e = true) (map (update_row i u) rows).
Proof.
  intros Hall Hup. rewrite Forall_forall in *.
  intros e' He'. apply in_map_iff in He'. destruct He' as [e [<- He]].
  unfold update_row. destruct (has_id i (Expense.id e)) eqn:Hid.
  - apply Hup; [exact He | apply has_id_true; exact Hid].
  - apply Hall, He.
Qed.

Lemma updateExpenseStatus_expenses (id : string) (st : Status)
  (reason : option string) (w : World) :
  expenses (snd (updateExpenseStatus id st reason w))
  = match next_outcome w with
    | Succeed =>
        map (update_row id
               {| u_status := Some st; u_updated_at := Some (now w);
                  u_rejection_reason :=
                    if Status_eqb st rejected && Js.truthy_opt reason
                    then reason else None;
                  u_payment_status := None; u_paid_at := None |}) (expenses w)
    | _ => expenses w
    end.
Proof.
  unfold updateExpenseStatus, try_catch, bind, new_Date, request, next_outcome.
  cbn [plan with_clock]. destruct (hd Succeed (plan w)); reflexivity.
Qed.

Lemma updatePaymentStatus_expenses (id : string) (isPaid : bool) (w : World) :
  expenses (snd (updatePaymentStatus id isPaid w))
  = match next_outcome w with
    | Succeed =>
        map (update_row id
               {| u_status := None;
                  u_updated_at :=
                    Some (if isPaid then now w + hd 0 (clock_steps w) else now w);
                  u_rejection_reason := None;
                  u_payment_status := Some (if isPaid then paid else payment_pending);
                  u_paid_at := Some (if isPaid then Some (now w) else None) |})
          (expenses w)
    | _ => expenses w
    end.
Proof.
  unfold updatePaymentStatus, try_catch, bind, ret, new_Date, request, next_outcome.
  destruct isPaid; cbn [plan with_clock]; destruct (hd Succeed (plan w)); reflexivity.
Qed.

(** C4, as the source has it. On a table where a rejection reason is stored
    only on rejected expenses, [updatePaymentStatus] keeps that so, and so
    does [updateExpenseStatus] when the new status is [rejected] or when
    the expense it updates stores no reason. An update never clears a
    stored reason: the reason of an updated row is the one supplied when
    the status is [rejected] and the reason is not empty, else the one
    stored before. *)
Theorem status_updates_keep_reason_invariant (id : string) (w : World) :
  Forall (fun e => reason_only_if_rejected e = true) (expenses w) ->
  (forall isPaid,
     Forall (fun e => reason_only_if_rejected e = true)
       (expenses (snd (updatePaymentStatus id isPaid w)))) /\
  (forall reason,
     Forall (fun e => reason_only_if_rejected e = true)
       (expenses (snd (updateExpenseStatus id rejected reason w)))) /\
  (forall st reason,
     (forall e, In e (expenses w) -> Expense.id e = Some id ->
                Expense.rejection_reason e = None) ->
     Forall (fun e => reason_only_if_rejected e = true)
       (expenses (snd (updateExpenseStatus id st reason w)))) /\
  (forall st reason,
     next_outcome w = Succeed ->
     map Expense.rejection_reason (expenses (snd (updateExpenseStatus id st reason w)))
     = map (fun e => if has_id id (Expense.id e)
                     then reason_after st reason e
                     else Expense.rejection_reason e) (expenses w)).
Proof.
  intros Hall. repeat apply conj.
  - intros isPaid. rewrite updatePaymentStatus_expenses.
    destruct (next_outcome w); try exact Hall.
    apply update_rows_invariant; [exact Hall |].
    intros e He _. rewrite Forall_forall in Hall. exact (Hall e He).
  - intros reason. rewrite updateExpenseStatus_expenses.
    destruct (next_outcome w); try exact Hall.
    apply update_rows_invariant; [exact Hall |].
    intros e _ _. unfold reason_only_if_rejected, apply_update; simpl.
    destruct (Js.truthy_opt reason), reason, (Expense.rejection_reason e); reflexivity.
  - intros st reason Hnone. rewrite updateExpenseStatus_expenses.
    destruct (next_outcome w); try exact Hall.
    apply update_rows_invariant; [exact Hall |].
    intros e He Hid. unfold reason_only_if_rejected, apply_update; simpl.
    rewrite (Hnone e He Hid).
    destruct st, (Js.truthy_opt reason), reason; reflexivity.
  - intros st reason Ho. rewrite updateExpenseStatus_expenses, Ho, map_map.
    apply map_ext. intros e. unfold update_row, reason_after.
    destruct (has_id id (Expense.id e)); [| reflexivity].
    unfold apply_update; simpl.
    destruct (Status_eqb st rejected && Js.truthy_opt reason) eqn:Hc; [| reflexivity].
    destruct reason; [reflexivity |].
    rewrite andb_false_r in Hc. discriminate.
Qed.

Lemma status_updates_keep_reason_invariant_sample :
  Forall (fun e => reason_only_if_rejected e = true)
    (expenses (snd (updatePaymentStatus "c" true Sample.up))) /\
  Forall (fun e => reason_only_if_rejected e = true)
    (expenses (snd (updateExpenseStatus "b" rejected (Some "no receipt") Sample.up))) /\
  map Expense.rejection_reason
    (expenses (snd (updateExpenseStatus "a" approved None Sample.up)))
  = [Some "duplicate"; None; None; None].
Proof.
  assert (H : Forall (fun e => reason_only_if_rejected e = true) (expenses Sample.up))
    by (repeat constructor).
  split; [| split].
  - apply (proj1 (status_updates_keep_reason_invariant "c" Sample.up H)).
  - apply (proj1 (proj2 (status_updates_keep_reason_invariant "b" Sample.up H))).
  - apply (proj2 (proj2 (proj2 (status_updates_keep_reason_invariant "a" Sample.up H)))
             approved None eq_refl).
Defined.

(** C4 as stated fails: expense [a] is rejected with a reason, the table
    satisfies the invariant, and after [updateExpenseStatus] to [approved]
    the row is approved and still carries the reason. *)
Lemma approving_rejected_keeps_reason :
  Forall (fun e => reason_only_if_rejected e = true) (expenses Sample.up) /\
  In (Sample.expense "a" rejected (Some "duplicate") (Some 5)) (expenses Sample.up) /\
  fst (updateExpenseStatus "a" approved None Sample.up)
  = Ok (Some [{| Expense.id := Some "a"; Expense.user_id := "u1"; Expense.name := "Taxi";
                 Expense.description := "airport"; Expense.amount := 4200;
                 Expense.purpose := "travel"; Expense.cost_center_id := "cc1";
                 Expense.category_id := "cat1"; Expense.payment_date := "2024-03-01";
                 Expense.status := approved; Expense.payment_status := None;
                 Expense.paid_at := None; Expense.rejection_reason := Some "duplicate";
                 Expense.submitted_date := Some 5; Expense.updated_at := Some 100 |}]) /\
  ~ Forall (fun e => reason_only_if_rejected e = true)
      (expenses (snd (updateExpenseStatus "a" approved None Sample.up))).
Proof.
  split; [repeat constructor |].
  split; [left; reflexivity |].
  split; [reflexivity |].
  intros H. inversion H as [|? ? Ha _]. discriminate Ha.
Qed.

(** ** Creating an expense *)

(** One upload: its promise is fulfilled when the storage serves the call
    and rejected with the backend's error otherwise; the tables are not
    touched and one outcome of the plan is used. *)
Lemma upload_file_step (ed : Expense.t) (i : nat) (f : File.t) (w : World) :
  let (r, w') := upload_file ed i f w in
  plan w' = tl (plan w) /\ expenses w' = expenses w /\ receipts w' = receipts w /\
  match next_outcome w with
  | Succeed => exists rec, r = Ok rec
  | Fail e | Reject e => r = Throw (ThrownBackend e)
  end.
Proof.
  unfold upload_file, bind, gets, request.
  destruct (next_outcome w); cbn; repeat split; try reflexivity.
  eexists; reflexivity.
Qed.

Lemma start_uploads_tables (ed : Expense.t) (files : list File.t) :
  forall i w,
    expenses (snd (start_uploads ed i files w)) = expenses w /\
    receipts (snd (start_uploads ed i files w)) = receipts w.
Proof.
  induction files as [|f files IH]; intros i w; simpl.
  - split; reflexivity.
  - pose proof (upload_file_step ed i f w) as Hstep.
    destruct (upload_file ed i f w) as [r w1].
    destruct Hstep as (_ & He & Hr & _).
    specialize (IH (S i) w1).
    destruct (start_uploads ed (S i) files w1) as [rs w2]; simpl in *.
    destruct IH as [IHe IHr]. split; congruence.
Qed.

(** A rejected upload is one whose planned outcome is a failure. *)
Lemma start_uploads_rejected (ed : Expense.t) (files : list File.t) :
  forall i w k x,
    nth_error (fst (start_uploads ed i files w)) k = Some (Throw x) ->
    exists e, x = ThrownBackend e /\ (k < length files)%nat /\
              (nth k (plan w) Succeed = Fail e \/ nth k (plan w) Succeed = Reject e).
Proof.
  induction files as [|f files IH]; intros i w k x; simpl.
  - destruct k; discriminate.
  - pose proof (upload_file_step ed i f w) as Hstep.
    destruct (upload_file ed i f w) as [r w1].
    destruct Hstep as (Hp & _ & _ & Ho).
    specialize (IH (S i) w1).
    destruct (start_uploads ed (S i) files w1) as [rs w2]; simpl in *.
    destruct k as [|k]; simpl.
    + intros [= ->]. unfold next_outcome in Ho.
      replace (nth 0 (plan w) Succeed) with (hd Succeed (plan w))
        by (destruct (plan w); reflexivity).
      destruct (hd Succeed (plan w)) as [|e|e].
      * destruct Ho as [rec Hrec]. discriminate.
      * injection Ho as ->. exists e. repeat split; [lia | left; reflexivity].
      * injection Ho as ->. exists e. repeat split; [lia | right; reflexivity].
    + intros Hk. destruct (IH k x Hk) as (e & -> & Hlt & Hout).
      exists e. split; [reflexivity |]. split; [lia |].
      rewrite Hp in Hout. destruct (plan w) as [|o p]; simpl in *.
      * destruct k; destruct Hout; discriminate.
      * exact Hout.
Qed.

(** When some planned outcome is a failure, not all promises are
    fulfilled. *)
Lemma start_uploads_some_rejected (ed : Expense.t) (files : list File.t) :
  forall i w k,
    (k < length files)%nat -> nth k (plan w) Succeed <> Succeed ->
    exists x, all_fulfilled (fst (start_uploads ed i files w)) = Throw x.
Proof.
  induction files as [|f files IH]; intros i w k Hk Hne; simpl in *.
  - lia.
  - pose proof (upload_file_step ed i f w) as Hstep.
    destruct (upload_file ed i f w) as [r w1].
    destruct Hstep as (Hp & _ & _ & Ho).
    specialize (IH (S i) w1).
    destruct (start_uploads ed (S i) files w1) as [rs w2]; simpl in *.
    destruct r as [rec|x]; [| eexists; reflexivity].
    destruct k as [|k].
    + exfalso. apply Hne. unfold next_outcome in Ho.
      destruct (plan w) as [|o p]; [reflexivity |]. simpl in *.
      destruct o; [reflexivity | discriminate Ho ..].
    + destruct (IH k) as [x Hx].
      * lia.
      * rewrite Hp. destruct (plan w) as [|o p]; simpl in *; [| exact Hne].
        destruct k; exact Hne.
      * rewrite Hx. eexists; reflexivity.
Qed.

Lemma all_fulfilled_rejected {A} (rs : list (Res A)) (x : Exn) :
  all_fulfilled rs = Throw x -> exists k, nth_error rs k = Some (Throw x).
Proof.
  induction rs as [|r rs IH]; simpl; [discriminate |].
  destruct r as [a|y].
  - destruct (all_fulfilled rs) as [l|z]; [discriminate |].
    intros [= ->]. destruct (IH eq_refl) as [k Hk]. exists (S k). exact Hk.
  - intros [= ->]. exists 0%nat. reflexivity.
Qed.

Lemma first_rejected_rejected {A} (settled : list nat) (rs : list (Res A)) (x : Exn) :
  first_rejected settled rs = Some x -> exists k, nth_error rs k = Some (Throw x).
Proof.
  induction settled as [|i settled IH]; simpl; [discriminate |].
  destruct (nth_error rs i) as [[a|y]|] eqn:Hi; try exact IH.
  intros [= ->]. exists i. exact Hi.
Qed.

(** [Promise.all] rejects as soon as one promise does, with the reason of
    one of the rejected promises. *)
Lemma promise_all_rejects {A} (settled : list nat) (rs : list (Res A)) (x0 : Exn) :
  all_fulfilled rs = Throw x0 ->
  exists x k, promise_all settled rs = Throw x /\ nth_error rs k = Some (Throw x).
Proof.
  intros H0. unfold promise_all. rewrite H0.
  destruct (first_rejected settled rs) as [x|] eqn:Hf.
  - destruct (first_rejected_rejected _ _ _ Hf) as [k Hk]. exists x, k. split; auto.
  - destruct (all_fulfilled_rejected _ _ H0) as [k Hk]. exists x0, k. split; auto.
Qed.

(** C6. When the insertion of the expense is served and the upload of at
    least one of the files fails, [createExpense] raises the backend error
    of a failed upload; the inserted expense row stays in the table and the
    table of receipts is as before. *)
Theorem createExpense_upload_failure (expense : Expense.t) (files : list File.t)
  (w : World) (k : nat) :
  next_outcome w = Succeed ->
  (k < length files)%nat ->
  upload_outcome w k <> Succeed ->
  exists e j,
    fst (createExpense expense files w) = Throw (ThrownBackend e) /\
    (j < length files)%nat /\
    (upload_outcome w j = Fail e \/ upload_outcome w j = Reject e) /\
    expenses (snd (createExpense expense files w))
    = (expenses w ++ [stored_expense w expense])%list /\
    receipts (snd (createExpense expense files w)) = receipts w.
Proof.
  intros Ho Hk Hne.
  unfold createExpense, try_catch, bind, request. rewrite Ho.
  cbn [serve_insert_expense unwrap error answered data ret].
  assert (Hlen : (0 <? length files)%nat = true) by (apply Nat.ltb_lt; lia).
  rewrite Hlen. unfold upload_all.
  set (row := stored_expense (issue (InsertExpense expense) w) expense).
  set (w1 := with_next_id _ _).
  assert (Hplan : plan w1 = tl (plan w)) by reflexivity.
  pose proof (start_uploads_tables row files 0 w1) as [Hexp Hrec].
  pose proof (start_uploads_rejected row files 0 w1) as Hrej.
  destruct (start_uploads_some_rejected row files 0 w1 k Hk) as [x0 Hx0].
  { rewrite Hplan. exact Hne. }
  destruct (start_uploads row 0 files w1) as [rs w2]; simpl in Hexp, Hrec, Hrej, Hx0.
  destruct (promise_all_rejects (settle_order w1) rs x0 Hx0) as (x & j & Hall & Hj).
  rewrite Hall.
  destruct (Hrej j x Hj) as (e & -> & Hlt & Hout).
  exists e, j. cbn [fst snd].
  split; [reflexivity |]. split; [exact Hlt |].
  split; [exact Hout |].
  unfold throw; cbn [snd]. rewrite Hexp, Hrec. split; reflexivity.
Qed.

Lemma createExpense_upload_failure_sample :
  exists e j,
    fst (createExpense Sample.draft [Sample.scan; Sample.photo] Sample.down_after_two)
    = Throw (ThrownBackend e) /\
    (j < 2)%nat /\
    (upload_outcome Sample.down_after_two j = Fail e \/
     upload_outcome Sample.down_after_two j = Reject e) /\
    expenses (snd (createExpense Sample.draft [Sample.scan; Sample.photo]
                     Sample.down_after_two))
    = (expenses Sample.down_after_two
       ++ [stored_expense Sample.down_after_two Sample.draft])%list /\
    receipts (snd (createExpense Sample.draft [Sample.scan; Sample.photo]
                     Sample.down_after_two))
    = receipts Sample.down_after_two.
Proof.
  apply (createExpense_upload_failure Sample.draft [Sample.scan; Sample.photo]
           Sample.down_after_two 1).
  - reflexivity.
  - simpl. lia.
  - discriminate.
Defined.

(** ** Profile resolution *)

(** Unfolds the monad so that a handler becomes a tree of case analyses. *)
Ltac run_monad :=
  unfold setSession, setUser, setProfile, setIsLoading, setIsAdmin,
    setUserRoles, set_initialLoad, backend, request, unwrap;
  unfold bind, try_catch, try_finally, gets, modify, lift_res, ret, throw,
    with_world;
  cbn beta iota.

(** Splits on the scrutinee of a [match] of the goal. *)
Ltac split_case :=
  match goal with
  | |- context [match ?x with _ => _ end] =>
      lazymatch x with
      | context [match _ with _ => _ end] => fail
      | _ => destruct x eqn:?
      end
  end.

Ltac all_paths := repeat (cbn [fst snd isLoading isAdmin userRoles session user
                               initialLoad env world profile data error
                               answered failed]; try split_case).

Lemma fetchUserProfile_completes (userId : string) (a : App) :
  fst (fetchUserProfile userId a) = Ok tt /\
  isLoading (snd (fetchUserProfile userId a)) = false.
Proof.
  unfold fetchUserProfile, create_profile, serve_select_user, serve_get_user,
    serve_insert_user.
  run_monad.
  all_paths; split; reflexivity.
Qed.

(** C9. Whatever the backend does (profile found, profile missing with the
    insertion served or refused, read error, rejected promise, environment
    not configured), [fetchUserProfile] completes without raising and
    leaves [isLoading] false. *)
Theorem fetchUserProfile_clears_loading (userId : string) (a : App) :
  fst (fetchUserProfile userId a) = Ok tt /\
  isLoading (snd (fetchUserProfile userId a)) = false.
Proof.
  exact (fetchUserProfile_completes userId a).
Qed.

Lemma includes_In (l : list string) (x : string) : Js.includes l x = true <-> In x l.
Proof.
  unfold Js.includes. rewrite existsb_exists. split.
  - intros [y [Hy Heq]]. apply String.eqb_eq in Heq. subst. exact Hy.
  - intros H. exists x. split; [exact H | apply String.eqb_refl].
Qed.

(** The two values derived from a profile agree. *)
Lemma admin_of_roles_of (roles : Roles) :
  admin_of roles = Js.includes (roles_of roles) "admin".
Proof.
  destruct roles as [|s|l]; simpl; try reflexivity.
  unfold Js.truthy. destruct (s =? "")%string eqn:Hs; simpl.
  - apply String.eqb_eq in Hs. subst. reflexivity.
  - rewrite orb_false_r. apply String.eqb_sym.
Qed.

Ltac unfold_profile :=
  unfold fetchUserProfile, create_profile, serve_select_user, serve_get_user,
    serve_insert_user;
  run_monad.

Lemma fetchUserProfile_roles_consistent (userId : string) (a : App) :
  roles_consistent (snd (fetchUserProfile userId a)).
Proof.
  unfold roles_consistent. unfold_profile.
  all_paths; try reflexivity; apply admin_of_roles_of.
Qed.

(** Profile resolution writes neither the session, the user, the
    [initialLoad] flag nor the environment. *)
Lemma fetchUserProfile_frame (userId : string) (a : App) :
  session (snd (fetchUserProfile userId a)) = session a /\
  user (snd (fetchUserProfile userId a)) = user a /\
  initialLoad (snd (fetchUserProfile userId a)) = initialLoad a /\
  env (snd (fetchUserProfile userId a)) = env a.
Proof.
  unfold_profile.
  all_paths; repeat split; reflexivity.
Qed.

(** With the environment configured, profile resolution starts with the
    read of the [users] row. *)
Lemma fetchUserProfile_reads_profile (userId : string) (a : App) :
  env_missing (env a) = false ->
  exists rest,
    trace (world (snd (fetchUserProfile userId a)))
    = (trace (world a) ++ SelectUser userId :: rest)%list.
Proof.
  intros He. unfold_profile. cbn [env]. rewrite He.
  all_paths; cbn; rewrite <- ?app_assoc; cbn; eexists; reflexivity.
Qed.

(** ** The provider as a state machine *)

Lemma handle_roles_consistent (ev : Event) (a : App) :
  roles_consistent a -> roles_consistent (snd (handle ev a)).
Proof.
  intros H. destruct ev as [s | s | v |]; simpl.
  - unfold onGetSession. run_monad.
    destruct (session_user s); [apply fetchUserProfile_roles_consistent | exact H].
  - unfold onAuthStateChange. run_monad.
    destruct (initialLoad a); [exact H |].
    destruct (session_user s); [apply fetchUserProfile_roles_consistent | reflexivity].
  - destruct v; exact H.
  - unfold signOut, serve_sign_out. run_monad.
    unfold roles_consistent. all_paths; solve [reflexivity | exact H].
Qed.

Lemma run_roles_consistent (evs : list Event) :
  forall a, roles_consistent a -> roles_consistent (run evs a).
Proof.
  induction evs as [|ev evs IH]; intros a H; simpl.
  - exact H.
  - apply IH, handle_roles_consistent, H.
Qed.

(** C1. In every state the provider reaches after it is mounted, whatever
    the events and the backend, [isAdmin] is the membership of ["admin"] in
    [userRoles], and [hasRole r] holds exactly when ["admin"] or [r] is in
    [userRoles]. *)
Theorem hasRole_iff_admin_or_member (e : Env) (w : World) (evs : list Event)
  (r : string) :
  isAdmin (run evs (mount e w)) = Js.includes (userRoles (run evs (mount e w))) "admin" /\
  (hasRole (run evs (mount e w)) r = true
   <-> In "admin" (userRoles (run evs (mount e w)))
       \/ In r (userRoles (run evs (mount e w)))).
Proof.
  assert (H : roles_consistent (run evs (mount e w)))
    by (apply run_roles_consistent; reflexivity).
  split; [exact H |].
  unfold hasRole. rewrite H.
  destruct (Js.includes (userRoles (run evs (mount e w))) "admin") eqn:Ha.
  - split; [| reflexivity]. intros _. left. apply includes_In, Ha.
  - rewrite includes_In. split; [intros Hr; right; exact Hr |].
    intros [Hadm | Hr]; [| exact Hr].
    apply includes_In in Hadm. congruence.
Qed.

(** Two runs: an approver who is not an admin, and an admin. *)
Example hasRole_sample :
  let a := run [SessionLoaded (Sample.signed_in "u1")] (mount Sample.config Sample.up) in
  userRoles a = ["approver"] /\ hasRole a "approver" = true /\ hasRole a "deleter" = false.
Proof. vm_compute. repeat split. Qed.

Lemma handle_initialLoad (ev : Event) (a : App) :
  initialLoad (snd (handle ev a))
  = match ev with AuthEvent _ => false | _ => initialLoad a end.
Proof.
  destruct ev as [s | s | v |]; simpl.
  - unfold onGetSession. run_monad.
    destruct (session_user s); [| reflexivity].
    rewrite (proj1 (proj2 (proj2 (fetchUserProfile_frame _ _)))). reflexivity.
  - unfold onAuthStateChange. run_monad.
    destruct (initialLoad a) eqn:Hi; [reflexivity |].
    destruct (session_user s); [| cbn; exact Hi].
    rewrite (proj1 (proj2 (proj2 (fetchUserProfile_frame _ _)))). cbn. exact Hi.
  - destruct v; reflexivity.
  - unfold signOut, serve_sign_out. run_monad. all_paths; reflexivity.
Qed.

Lemma handle_env (ev : Event) (a : App) : env (snd (handle ev a)) = env a.
Proof.
  destruct ev as [s | s | v |]; simpl.
  - unfold onGetSession. run_monad.
    destruct (session_user s); [| reflexivity].
    rewrite (proj2 (proj2 (proj2 (fetchUserProfile_frame _ _)))). reflexivity.
  - unfold onAuthStateChange. run_monad.
    destruct (initialLoad a); [reflexivity |].
    destruct (session_user s); [| reflexivity].
    rewrite (proj2 (proj2 (proj2 (fetchUserProfile_frame _ _)))). reflexivity.
  - destruct v; reflexivity.
  - unfold signOut, serve_sign_out. run_monad. all_paths; reflexivity.
Qed.

Lemma run_env (evs : list Event) : forall a, env (run evs a) = env a.
Proof.
  induction evs as [|ev evs IH]; intros a; simpl; [reflexivity |].
  rewrite IH. apply handle_env.
Qed.

(** Until an auth event is delivered the flag stays as the effect set it. *)
Lemma run_before_first_auth_event (evs : list Event) :
  forall a, no_auth_event evs = true -> initialLoad (run evs a) = initialLoad a.
Proof.
  induction evs as [|ev evs IH]; intros a H; simpl; [reflexivity |].
  simpl in H. apply andb_true_iff in H. destruct H as [Hev Hevs].
  rewrite (IH _ Hevs), handle_initialLoad.
  destruct ev; [reflexivity | discriminate | reflexivity | reflexivity].
Qed.

(** Once cleared, the flag stays cleared. *)
Lemma run_after_first_auth_event (evs : list Event) :
  forall a, initialLoad a = false -> initialLoad (run evs a) = false.
Proof.
  induction evs as [|ev evs IH]; intros a H; simpl; [exact H |].
  apply IH. rewrite handle_initialLoad. destruct ev; auto.
Qed.

(** C2. After the provider is mounted, the first auth event is dropped: the
    session, the user, the profile, the flags, the roles and the backend
    (no call is issued, so no second profile read) are as before it. Every
    later auth event stores its session and user; with a user it resolves
    the profile, starting with the read of the [users] row, and without one
    it clears the profile, the admin flag and the roles. *)
Theorem first_auth_event_discarded (e : Env) (w : World) (pre : list Event)
  (s : option Session.t) :
  no_auth_event pre = true ->
  let a := run pre (mount e w) in
  let a' := snd (onAuthStateChange s a) in
  (session a' = session a /\ user a' = user a /\ profile a' = profile a /\
   isLoading a' = isLoading a /\ isAdmin a' = isAdmin a /\
   userRoles a' = userRoles a /\ world a' = world a) /\
  forall (post : list Event) (s2 : option Session.t),
    let b := run post a' in
    let b' := snd (onAuthStateChange s2 b) in
    session b' = s2 /\ user b' = session_user s2 /\ isLoading b' = false /\
    match session_user s2 with
    | Some u =>
        env_missing e = false ->
        exists rest,
          trace (world b') = (trace (world b) ++ SelectUser (User.id u) :: rest)%list
    | None =>
        profile b' = None /\ isAdmin b' = false /\ userRoles b' = [] /\
        world b' = world b
    end.
Proof.
  intros Hpre a a'.
  assert (Ha : initialLoad a = true).
  { unfold a. rewrite run_before_first_auth_event by exact Hpre. reflexivity. }
  assert (Ha' : a' = snd (set_initialLoad false a)).
  { unfold a', onAuthStateChange, bind, gets. rewrite Ha. reflexivity. }
  split.
  - rewrite Ha'. repeat split.
  - intros post s2 b b'.
    assert (Hb : initialLoad b = false).
    { unfold b. apply run_after_first_auth_event. rewrite Ha'. reflexivity. }
    assert (Henv : env b = e).
    { unfold b. rewrite run_env, Ha'. cbn. unfold a. rewrite run_env. reflexivity. }
    unfold b', onAuthStateChange. run_monad. rewrite Hb.
    destruct (session_user s2) as [u|].
    + match goal with
      | |- context [fetchUserProfile _ ?x] => set (b0 := x)
      end.
      destruct (fetchUserProfile_frame (User.id u) b0) as (Hs & Hu & _ & _).
      split; [exact Hs |]. split; [exact Hu |].
      split; [apply fetchUserProfile_completes |].
      intros He. apply (fetchUserProfile_reads_profile (User.id u) b0).
      cbn. rewrite Henv. exact He.
    + cbn. repeat split.
Qed.

Lemma first_auth_event_discarded_sample :
  let a := run [SessionLoaded (Sample.signed_in "u1")] (mount Sample.config Sample.up) in
  let a' := snd (onAuthStateChange (Sample.signed_in "u1") a) in
  (session a' = session a /\ user a' = user a /\ profile a' = profile a /\
   isLoading a' = isLoading a /\ isAdmin a' = isAdmin a /\
   userRoles a' = userRoles a /\ world a' = world a) /\
  forall (post : list Event) (s2 : option Session.t),
    let b := run post a' in
    let b' := snd (onAuthStateChange s2 b) in
    session b' = s2 /\ user b' = session_user s2 /\ isLoading b' = false /\
    match session_user s2 with
    | Some u =>
        env_missing Sample.config = false ->
        exists rest,
          trace (world b') = (trace (world b) ++ SelectUser (User.id u) :: rest)%list
    | None =>
        profile b' = None /\ isAdmin b' = false /\ userRoles b' = [] /\
        world b' = world b
    end.
Proof.
  exact (first_auth_event_discarded Sample.config Sample.up
           [SessionLoaded (Sample.signed_in "u1")] (Sample.signed_in "u1") eq_refl).
Defined.

(** The first auth event after a startup that read the profile of [u1]:
    the backend has received the single read of the startup. *)
Example no_second_fetch_sample :
  trace (world (run [SessionLoaded (Sample.signed_in "u1"); AuthEvent (Sample.signed_in "u1")]
                  (mount Sample.config Sample.up)))
  = [SelectUser "u1"] /\
  trace (world (run [SessionLoaded (Sample.signed_in "u1"); AuthEvent (Sample.signed_in "u1");
                     AuthEvent (Sample.signed_in "u1")]
                  (mount Sample.config Sample.up)))
  = [SelectUser "u1"; SelectUser "u1"].
Proof. vm_compute. split; reflexivity. Qed.

(** The exits of [fetchUserProfile], one backend each: the profile is
    found; it is missing and created; it is missing and the insertion is
    refused; the read is refused; the read's promise rejects; the
    environment is not configured. *)
Example fetchUserProfile_exits :
  let start := mount Sample.config in
  let after (userId : string) (a : App) := snd (fetchUserProfile userId a) in
  (isLoading (after "u1" (start Sample.up)) = false /\
   profile (after "u1" (start Sample.up)) = Some Sample.ana /\
   userRoles (after "u1" (start Sample.up)) = ["approver"]) /\
  (isLoading (after "u2" (start Sample.up)) = false /\
   userRoles (after "u2" (start Sample.up)) = ["user"] /\
   trace (world (after "u2" (start Sample.up)))
   = [SelectUser "u2"; GetUser;
      InsertUser {| Profile.id := "u2"; Profile.name := Some "bob@example.com";
                    Profile.email := Some "bob@example.com";
                    Profile.role := Some "user"; Profile.roles := RolesArray ["user"] |};
      SelectUser "u2"]) /\
  (isLoading (after "u2" (start Sample.down_after_two)) = false /\
   profile (after "u2" (start Sample.down_after_two)) = None /\
   users (world (after "u2" (start Sample.down_after_two))) = [Sample.ana]) /\
  (isLoading (after "u1" (start Sample.down)) = false /\
   profile (after "u1" (start Sample.down)) = None /\
   userRoles (after "u1" (start Sample.down)) = ["user"]) /\
  (isLoading (after "u1" (start (Sample.backend_with [Reject Sample.unreachable]))) = false /\
   profile (after "u1" (start (Sample.backend_with [Reject Sample.unreachable]))) = None) /\
  (isLoading (after "u1"
                (mount {| VITE_SUPABASE_URL := None; VITE_SUPABASE_ANON_KEY := None |}
                   Sample.up)) = false /\
   trace (world (after "u1"
                   (mount {| VITE_SUPABASE_URL := None; VITE_SUPABASE_ANON_KEY := None |}
                      Sample.up))) = []).
Proof. vm_compute. repeat split. Qed.

(** * Further properties *)

(** ** Listing: edge cases of the filters *)

(** X1. An invalid date bound makes [toISOString] throw while the query is
    built: the [RangeError] is raised and the backend receives no call. *)
Theorem fetchExpenses_invalid_date (filters : Filters.t) (w : World) :
  dateRange_from filters = Some Js.InvalidDate \/
  dateRange_to filters = Some Js.InvalidDate ->
  fetchExpenses filters w = (Throw ThrownRangeError, w).
Proof.
  unfold fetchExpenses, try_catch, bind, lift_res, expenses_query.
  destruct (dateRange_from filters) as [[a|]|], (dateRange_to filters) as [[b|]|];
    simpl; intros [H | H]; try discriminate; reflexivity.
Qed.

Lemma fetchExpenses_invalid_date_sample :
  fetchExpenses
    {| Filters.search := None; Filters.status := Some "approved";
       Filters.category := None; Filters.costCenter := None;
       Filters.dateRange := Some {| from := Some (Js.ValidDate 6);
                                    to := Some Js.InvalidDate |} |}
    Sample.up
  = (Throw ThrownRangeError, Sample.up).
Proof.
  apply fetchExpenses_invalid_date. right. reflexivity.
Defined.

(** X2. White space around the search text is not significant: [fetchExpenses]
    does the same with [search: s] as with [search: s.trim()]. *)
Theorem fetchExpenses_trims_search (filters : Filters.t) (s : string) (w : World) :
  fetchExpenses (with_search s filters) w
  = fetchExpenses (with_search (Js.trim s) filters) w.
Proof.
  assert (H : text_filters (with_search s filters)
              = text_filters (with_search (Js.trim s) filters)).
  { unfold text_filters, search_active, with_search;
      cbn [Filters.search Filters.status Filters.category Filters.costCenter text_of].
    rewrite trim_idempotent.
    destruct (Js.truthy (Js.trim s)) eqn:Ht.
    - rewrite (trim_truthy s Ht). reflexivity.
    - rewrite andb_false_r. reflexivity. }
  unfold fetchExpenses, expenses_query. rewrite H. reflexivity.
Qed.

(** X3. With a status and a category given (and no other filter),
    [fetchExpenses] returns exactly the expenses with that status and that
    category, most recent first. *)
Theorem fetchExpenses_status_category (st c : string) (w : World) :
  st <> "" -> c <> "" -> next_outcome w = Succeed ->
  exists rows,
    fst (fetchExpenses
           {| Filters.search := None; Filters.status := Some st;
              Filters.category := Some c; Filters.costCenter := None;
              Filters.dateRange := None |} w) = Ok rows /\
    Permutation (map ExpenseView.expense rows)
      (filter (fun e => (status_name (Expense.status e) =? st)%string
                        && (Expense.category_id e =? c)%string) (expenses w)) /\
    Sorted (fun x y => by_date_desc x y = true) (map ExpenseView.expense rows).
Proof.
  intros Hst Hc Ho.
  apply String.eqb_neq in Hst, Hc.
  unfold fetchExpenses, try_catch, bind, lift_res, request, expenses_query,
    text_filters, search_active, field_active, Js.truthy.
  cbn [Filters.search Filters.status Filters.category Filters.costCenter
       dateRange_from dateRange_to Filters.dateRange text_of].
  rewrite Hst, Hc, Ho. cbn.
  eexists; split; [reflexivity |].
  rewrite map_expense_embed. split.
  - eapply Permutation_trans; [apply sort_by_perm |].
    erewrite filter_ext; [apply Permutation_refl |].
    intros e. cbn. rewrite andb_true_r. reflexivity.
  - apply sort_by_Sorted. intros x y. apply time_le_total.
Qed.

Lemma fetchExpenses_status_category_sample :
  exists rows,
    fst (fetchExpenses
           {| Filters.search := None; Filters.status := Some "approved";
              Filters.category := Some "cat1"; Filters.costCenter := None;
              Filters.dateRange := None |} Sample.up) = Ok rows /\
    Permutation (map ExpenseView.expense rows)
      (filter (fun e => (status_name (Expense.status e) =? "approved")%string
                        && (Expense.category_id e =? "cat1")%string)
         (expenses Sample.up)) /\
    Sorted (fun x y => by_date_desc x y = true) (map ExpenseView.expense rows).
Proof.
  apply (fetchExpenses_status_category "approved" "cat1" Sample.up);
    [discriminate | discriminate | reflexivity].
Defined.

(** ** One expense by its id *)

Lemma single_match_id (id : string) (e : Expense.t) (l : list Expense.t) :
  filter (fun x => has_id id (Expense.id x)) l = [e] -> Expense.id e = Some id.
Proof.
  intros H. apply has_id_true.
  assert (Hin : In e (filter (fun x => has_id id (Expense.id x)) l))
    by (rewrite H; left; reflexivity).
  apply filter_In in Hin. apply Hin.
Qed.

Lemma no_match_id (id : string) (l : list Expense.t) :
  (forall e, In e l -> Expense.id e <> Some id) ->
  filter (fun x => has_id id (Expense.id x)) l = [].
Proof.
  intros H. induction l as [|x l IH]; simpl; [reflexivity |].
  destruct (has_id id (Expense.id x)) eqn:Hx.
  - exfalso. apply (H x); [left; reflexivity | apply has_id_true; exact Hx].
  - apply IH. intros e He. apply H. right. exact He.
Qed.

(** X4. [fetchExpenseById] on a served read: when exactly one expense has the
    id, it is returned with the receipts that reference it; when none has,
    the error PGRST116 is raised. A refused read raises its error. The
    tables are never changed. *)
Theorem fetchExpenseById_found_or_raises (id : string) (w : World) :
  (forall e,
     next_outcome w = Succeed ->
     filter (fun x => has_id id (Expense.id x)) (expenses w) = [e] ->
     exists v,
       fst (fetchExpenseById id w) = Ok (Some v) /\
       ExpenseView.expense v = e /\
       ExpenseView.receipts v
       = filter (fun r => has_id id (Receipt.expense_id r)) (receipts w)) /\
  (next_outcome w = Succeed ->
   (forall e, In e (expenses w) -> Expense.id e <> Some id) ->
   exists err,
     fst (fetchExpenseById id w) = Throw (ThrownBackend err) /\ code err = "PGRST116") /\
  (forall err,
     next_outcome w = Fail err \/ next_outcome w = Reject err ->
     fst (fetchExpenseById id w) = Throw (ThrownBackend err)) /\
  same_tables w (snd (fetchExpenseById id w)).
Proof.
  unfold fetchExpenseById, bind, request, serve_select_expense, same_tables.
  repeat apply conj.
  1: { intros e Ho He. rewrite Ho. cbn [expenses issue]. rewrite He.
       eexists. split; [reflexivity |]. split; [reflexivity |].
       cbn. rewrite (single_match_id id e _ He). reflexivity. }
  1: { intros Ho Hnone. rewrite Ho. cbn [expenses issue].
       rewrite (no_match_id id _ Hnone). eexists. split; reflexivity. }
  1: { intros err [Ho | Ho]; rewrite Ho; reflexivity. }
  all: destruct (next_outcome w); try reflexivity;
    cbn [expenses issue];
    destruct (filter _ (expenses w)) as [|e [|e' l]]; reflexivity.
Qed.

Lemma fetchExpenseById_found_or_raises_sample :
  (exists v,
     fst (fetchExpenseById "a" Sample.up) = Ok (Some v) /\
     ExpenseView.expense v = Sample.expense "a" rejected (Some "duplicate") (Some 5) /\
     ExpenseView.receipts v
     = filter (fun r => has_id "a" (Receipt.expense_id r)) (receipts Sample.up)) /\
  (exists err,
     fst (fetchExpenseById "zz" Sample.up) = Throw (ThrownBackend err) /\
     code err = "PGRST116") /\
  fst (fetchExpenseById "a" Sample.down) = Throw (ThrownBackend Sample.unreachable).
Proof.
  split; [| split].
  - apply (proj1 (fetchExpenseById_found_or_raises "a" Sample.up)); reflexivity.
  - apply (proj1 (proj2 (fetchExpenseById_found_or_raises "zz" Sample.up)));
      [reflexivity |].
    intros e He. simpl in He.
    destruct He as [<- | [<- | [<- | [<- | []]]]]; discriminate.
  - apply (proj1 (proj2 (proj2 (fetchExpenseById_found_or_raises "a" Sample.down)))).
    left. reflexivity.
Defined.

(** ** Creating an expense: the served run *)

Lemma served_next (k : nat) (w : World) : served (S k) w -> next_outcome w = Succeed.
Proof.
  intros H. specialize (H 0%nat (Nat.lt_0_succ k)).
  unfold next_outcome. destruct (plan w); [reflexivity | exact H].
Qed.

Lemma served_after (k : nat) (w w' : World) :
  served (S k) w -> plan w' = tl (plan w) -> served k w'.
Proof.
  intros H Hp i Hi. rewrite Hp.
  specialize (H (S i) (proj1 (Nat.succ_lt_mono i k) Hi)).
  destruct (plan w) as [|o p]; simpl in *; [destruct i; reflexivity | exact H].
Qed.

Lemma upload_file_served (ed : Expense.t) (i : nat) (f : File.t) (w : World) :
  next_outcome w = Succeed ->
  upload_file ed i f w
  = (Ok (receipt_for (Expense.id ed) (now w) i f),
     with_bucket (bucket w ++ [(upload_path (Expense.id ed) (now w) i f, f)])
       (issue (Upload (upload_path (Expense.id ed) (now w) i f) f) w)).
Proof.
  intros Ho. unfold upload_file, bind, gets, request. rewrite Ho. reflexivity.
Qed.

Lemma start_uploads_served (ed : Expense.t) (files : list File.t) :
  forall i w,
    served (length files) w ->
    start_uploads ed i files w
    = (map Ok (receipts_for (Expense.id ed) (now w) i files),
       uploaded (Expense.id ed) i files w).
Proof.
  induction files as [|f files IH]; intros i w Hs; simpl; [reflexivity |].
  rewrite (upload_file_served ed i f w (served_next _ _ Hs)).
  rewrite IH by (apply (served_after _ w); [exact Hs | reflexivity]).
  reflexivity.
Qed.

(** What the served uploads leave: the tables, the clock and the id supply
    as they were, the files added to the bucket under the paths of their
    receipts, one outcome of the plan used by each. *)
Lemma uploaded_spec (id : option string) (files : list File.t) :
  forall i w,
    expenses (uploaded id i files w) = expenses w /\
    receipts (uploaded id i files w) = receipts w /\
    users (uploaded id i files w) = users w /\
    now (uploaded id i files w) = now w /\
    next_id (uploaded id i files w) = next_id w /\
    settle_order (uploaded id i files w) = settle_order w /\
    plan (uploaded id i files w) = skipn (length files) (plan w) /\
    bucket (uploaded id i files w)
    = (bucket w
       ++ combine (map Receipt.storage_path (receipts_for id (now w) i files)) files)%list.
Proof.
  induction files as [|f files IH]; intros i w; simpl.
  - rewrite app_nil_r. repeat split; reflexivity.
  - destruct (IH (S i)
                (with_bucket (bucket w ++ [(upload_path id (now w) i f, f)])
                   (issue (Upload (upload_path id (now w) i f) f) w)))
      as (He & Hr & Hu & Hn & Hi & Hs & Hp & Hb).
    repeat split; try assumption.
    + rewrite Hp. cbn. destruct (plan w); [destruct (length files) |]; reflexivity.
    + rewrite Hb. cbn. rewrite <- app_assoc. reflexivity.
Qed.

Lemma all_fulfilled_map_Ok {A} (l : list A) : all_fulfilled (map Ok l) = Ok l.
Proof.
  induction l as [|a l IH]; simpl; [reflexivity | rewrite IH; reflexivity].
Qed.

Lemma stored_receipts_fields (w : World) (rs : list Receipt.t) :
  forall n,
    map Receipt.expense_id (stored_receipts w n rs) = map Receipt.expense_id rs /\
    map Receipt.file_name (stored_receipts w n rs) = map Receipt.file_name rs /\
    map Receipt.file_type (stored_receipts w n rs) = map Receipt.file_type rs /\
    map Receipt.file_size (stored_receipts w n rs) = map Receipt.file_size rs /\
    map Receipt.storage_path (stored_receipts w n rs) = map Receipt.storage_path rs.
Proof.
  induction rs as [|r rs IH]; intros n; simpl.
  - repeat split; reflexivity.
  - destruct (IH (S n)) as (H1 & H2 & H3 & H4 & H5).
    rewrite H1, H2, H3, H4, H5. repeat split; reflexivity.
Qed.

Lemma receipts_for_fields (id : option string) (t : Z) (files : list File.t) :
  forall i,
    map Receipt.expense_id (receipts_for id t i files) = map (fun _ => id) files /\
    map Receipt.file_name (receipts_for id t i files) = map File.name files /\
    map Receipt.file_type (receipts_for id t i files) = map File.type files /\
    map Receipt.file_size (receipts_for id t i files) = map File.size files.
Proof.
  induction files as [|f files IH]; intros i; simpl.
  - repeat split; reflexivity.
  - destruct (IH (S i)) as (H1 & H2 & H3 & H4).
    rewrite H1, H2, H3, H4. repeat split; reflexivity.
Qed.

Lemma hd_skipn {A} (d : A) (n : nat) :
  forall l, hd d (skipn n l) = nth n l d.
Proof.
  induction n as [|n IH]; intros [|a l]; simpl; try reflexivity. apply IH.
Qed.

Lemma skipn_tl {A} (n : nat) (l : list A) : skipn n (tl l) = skipn (S n) l.
Proof.
  destruct l; simpl; [destruct n; reflexivity | reflexivity].
Qed.

(** The served run of [createExpense], field by field. *)
Lemma createExpense_served (expense : Expense.t) (files : list File.t) (w : World) :
  served (2 + length files) w ->
  exists w1,
    fst (createExpense expense files w) = Ok (Some (stored_expense w expense)) /\
    expenses (snd (createExpense expense files w))
    = (expenses w ++ [stored_expense w expense])%list /\
    receipts (snd (createExpense expense files w))
    = (receipts w
       ++ stored_receipts w1 0
            (receipts_for (Expense.id (stored_expense w expense)) (now w) 0 files))%list /\
    bucket (snd (createExpense expense files w))
    = (bucket w
       ++ combine
            (map Receipt.storage_path
               (receipts_for (Expense.id (stored_expense w expense)) (now w) 0 files))
            files)%list /\
    plan (snd (createExpense expense files w))
    = skipn (match files with [] => 1 | _ => 2 + length files end) (plan w).
Proof.
  intros Hs.
  unfold createExpense, try_catch, bind, request.
  rewrite (served_next _ _ Hs).
  cbn [serve_insert_expense unwrap error answered data ret].
  set (row := stored_expense (issue (InsertExpense expense) w) expense).
  set (w1 := with_next_id _ _).
  destruct files as [|f files].
  - exists w. cbn. rewrite !app_nil_r. repeat split; reflexivity.
  - assert (Hs1 : served (S (length (f :: files))) w1)
      by (apply (served_after _ w); [exact Hs | reflexivity]).
    assert (Hs2 : served (length (f :: files)) w1).
    { intros i Hi. apply Hs1. lia. }
    cbn [length Nat.ltb Nat.leb]. unfold upload_all.
    rewrite (start_uploads_served row (f :: files) 0 w1 Hs2).
    unfold promise_all. rewrite all_fulfilled_map_Ok.
    destruct (uploaded_spec (Expense.id row) (f :: files) 0 w1)
      as (He & Hr & Hu & Hn & Hi & Hso & Hp & Hb).
    set (w2 := uploaded (Expense.id row) 0 (f :: files) w1) in *.
    assert (Ho2 : next_outcome w2 = Succeed).
    { unfold next_outcome. rewrite Hp, hd_skipn.
      apply Hs1. apply Nat.lt_succ_diag_r. }
    rewrite Ho2.
    cbn [serve_insert_receipts error answered ret fst snd expenses receipts bucket
         plan with_next_id with_receipts issue].
    exists (issue (InsertReceipts (receipts_for (Expense.id row) (now w1) 0 (f :: files))) w2).
    rewrite He, Hr, Hb, Hp.
    repeat split; try reflexivity.
    change (plan w1) with (tl (plan w)).
    rewrite skipn_tl.
    change (tl (skipn (S (length (f :: files))) (plan w)))
      with (skipn 0 (tl (skipn (S (length (f :: files))) (plan w)))).
    rewrite skipn_tl, skipn_skipn. reflexivity.
Qed.

(** X5. With every call served, [createExpense] returns the stored expense,
    appends it to [expenses], stores each file in the bucket and appends one
    receipt per file, in the order of the files: each references the new
    expense, carries the name, type and size of its file and the path
    under which the file was stored. *)
Theorem createExpense_success (expense : Expense.t) (files : list File.t) (w : World) :
  served (2 + length files) w ->
  exists new,
    fst (createExpense expense files w) = Ok (Some (stored_expense w expense)) /\
    expenses (snd (createExpense expense files w))
    = (expenses w ++ [stored_expense w expense])%list /\
    receipts (snd (createExpense expense files w)) = (receipts w ++ new)%list /\
    map Receipt.expense_id new
    = map (fun _ => Expense.id (stored_expense w expense)) files /\
    map Receipt.file_name new = map File.name files /\
    map Receipt.file_type new = map File.type files /\
    map Receipt.file_size new = map File.size files /\
    bucket (snd (createExpense expense files w))
    = (bucket w ++ combine (map Receipt.storage_path new) files)%list.
Proof.
  intros Hs.
  destruct (createExpense_served expense files w Hs) as (w1 & Hr & He & Hrec & Hb & _).
  eexists. split; [exact Hr |]. split; [exact He |]. split; [exact Hrec |].
  destruct (stored_receipts_fields w1
              (receipts_for (Expense.id (stored_expense w expense)) (now w) 0 files) 0)
    as (H1 & H2 & H3 & H4 & H5).
  destruct (receipts_for_fields (Expense.id (stored_expense w expense)) (now w) files 0)
    as (G1 & G2 & G3 & G4).
  rewrite H1, H2, H3, H4, H5, G1, G2, G3, G4.
  repeat split; try reflexivity. exact Hb.
Qed.

Lemma createExpense_success_sample :
  exists new,
    fst (createExpense Sample.draft [Sample.scan; Sample.photo] Sample.up)
    = Ok (Some (stored_expense Sample.up Sample.draft)) /\
    expenses (snd (createExpense Sample.draft [Sample.scan; Sample.photo] Sample.up))
    = (expenses Sample.up ++ [stored_expense Sample.up Sample.draft])%list /\
    receipts (snd (createExpense Sample.draft [Sample.scan; Sample.photo] Sample.up))
    = (receipts Sample.up ++ new)%list /\
    map Receipt.expense_id new
    = map (fun _ => Expense.id (stored_expense Sample.up Sample.draft))
        [Sample.scan; Sample.photo] /\
    map Receipt.file_name new = map File.name [Sample.scan; Sample.photo] /\
    map Receipt.file_type new = map File.type [Sample.scan; Sample.photo] /\
    map Receipt.file_size new = map File.size [Sample.scan; Sample.photo] /\
    bucket (snd (createExpense Sample.draft [Sample.scan; Sample.photo] Sample.up))
    = (bucket Sample.up
       ++ combine (map Receipt.storage_path new) [Sample.scan; Sample.photo])%list.
Proof.
  apply (createExpense_success Sample.draft [Sample.scan; Sample.photo] Sample.up).
  intros [|[|[|[|i]]]] Hi; reflexivity.
Defined.

(** *** Distinct storage paths *)

Lemma string_app_inv_head (p a b : string) : (p ++ a = p ++ b)%string -> a = b.
Proof.
  induction p as [|c p IH]; simpl; intros H; [exact H |].
  injection H as H. apply IH, H.
Qed.

Lemma digits_string_of_uint (d : Decimal.uint) :
  digits (NilEmpty.string_of_uint d) = true.
Proof.
  induction d; simpl; try reflexivity; exact IHd.
Qed.

Lemma show_nat_digits (i : nat) : digits (Js.show (Z.of_nat i)) = true.
Proof.
  unfold Js.show. destruct (Z.of_nat i) as [|p|p] eqn:Hz; [reflexivity | | lia].
  simpl. unfold NilZero.string_of_uint.
  destruct (Pos.to_uint p); try reflexivity; apply digits_string_of_uint.
Qed.

Lemma show_inj (x y : Z) : Js.show x = Js.show y -> x = y.
Proof.
  unfold Js.show. intros H.
  apply DecimalZ.to_int_inj.
  assert (Hx : forall z, NilZero.int_of_string (NilZero.string_of_int (Z.to_int z))
                         = Some (Z.to_int z)).
  { intros z. apply NilZero.isi; destruct z; simpl; try discriminate;
      intros [= Hp]; apply (DecimalPos.Unsigned.to_uint_nonnil _ Hp). }
  pose proof (Hx x) as H1. rewrite H, (Hx y) in H1. congruence.
Qed.

Lemma digits_until_dot (s t x y : string) :
  digits s = true -> digits t = true ->
  (s ++ String "." x = t ++ String "." y)%string -> s = t.
Proof.
  revert t. induction s as [|c s IH]; intros [|d t] Hs Ht H; simpl in *.
  - reflexivity.
  - injection H as Hc _. subst d. discriminate.
  - injection H as Hc _. subst c. discriminate.
  - injection H as Hc H. subst d.
    apply andb_true_iff in Hs, Ht. f_equal. apply IH; tauto.
Qed.

(** Two files of one submission are stored under the same path only if
    they have the same position in the list. *)
Lemma upload_path_inj (id : option string) (t : Z) (i j : nat) (f g : File.t) :
  upload_path id t i f = upload_path id t j g -> i = j.
Proof.
  unfold upload_path. intros H.
  apply string_app_inv_head in H. simpl in H. injection H as H.
  apply string_app_inv_head in H. simpl in H. injection H as H.
  apply digits_until_dot in H; try apply show_nat_digits.
  apply show_inj in H. lia.
Qed.

Lemma receipts_for_paths (id : option string) (t : Z) (files : list File.t) :
  forall k p,
    In p (map Receipt.storage_path (receipts_for id t k files)) ->
    exists j f, (k <= j)%nat /\ p = upload_path id t j f.
Proof.
  induction files as [|f files IH]; intros k p; simpl; [intros [] |].
  intros [<- | Hin].
  - exists k, f. split; [lia | reflexivity].
  - destruct (IH (S k) p Hin) as (j & g & Hj & ->).
    exists j, g. split; [lia | reflexivity].
Qed.

Lemma receipts_for_NoDup (id : option string) (t : Z) (files : list File.t) :
  forall k, NoDup (map Receipt.storage_path (receipts_for id t k files)).
Proof.
  induction files as [|f files IH]; intros k; simpl; constructor.
  - intros Hin. destruct (receipts_for_paths id t files (S k) _ Hin) as (j & g & Hj & Heq).
    apply upload_path_inj in Heq. lia.
  - apply IH.
Qed.

Lemma receipts_for_length (id : option string) (t : Z) (files : list File.t) :
  forall k, length (receipts_for id t k files) = length files.
Proof.
  induction files as [|f files IH]; intros k; simpl;
    [reflexivity | rewrite IH; reflexivity].
Qed.

(** X6. The files of one submission are stored under pairwise distinct paths,
    also when several of them have the same name. *)
Theorem createExpense_paths_distinct (expense : Expense.t) (files : list File.t)
  (w : World) :
  served (2 + length files) w ->
  exists paths,
    bucket (snd (createExpense expense files w))
    = (bucket w ++ combine paths files)%list /\
    length paths = length files /\
    NoDup paths.
Proof.
  intros Hs.
  destruct (createExpense_served expense files w Hs) as (w1 & _ & _ & _ & Hb & _).
  eexists. split; [exact Hb |]. split.
  - rewrite length_map. apply receipts_for_length.
  - apply receipts_for_NoDup.
Qed.

Lemma createExpense_paths_distinct_sample :
  exists paths,
    bucket (snd (createExpense Sample.draft [Sample.scan; Sample.scan] Sample.up))
    = (bucket Sample.up ++ combine paths [Sample.scan; Sample.scan])%list /\
    length paths = 2%nat /\
    NoDup paths.
Proof.
  apply (createExpense_paths_distinct Sample.draft [Sample.scan; Sample.scan] Sample.up).
  intros [|[|[|[|i]]]] Hi; reflexivity.
Defined.

(** ** Creating an expense: the other runs *)

(** X7. Without files, or when the insertion of the expense is refused, the
    insertion is the only call [createExpense] makes: nothing is uploaded
    and no receipt is inserted. A refused insertion raises its error and
    leaves [expenses] as it was. *)
Theorem createExpense_single_call (expense : Expense.t) (files : list File.t)
  (w : World) :
  (files = [] \/ next_outcome w <> Succeed ->
   trace (snd (createExpense expense files w)) = (trace w ++ [InsertExpense expense])%list /\
   receipts (snd (createExpense expense files w)) = receipts w /\
   bucket (snd (createExpense expense files w)) = bucket w) /\
  (forall e,
     next_outcome w = Fail e \/ next_outcome w = Reject e ->
     fst (createExpense expense files w) = Throw (ThrownBackend e) /\
     expenses (snd (createExpense expense files w)) = expenses w).
Proof.
  unfold createExpense, try_catch, bind, request. split.
  - intros [-> | Hne].
    + destruct (next_outcome w); repeat split; reflexivity.
    + destruct (next_outcome w); [congruence | repeat split; reflexivity ..].
  - intros e [Ho | Ho]; rewrite Ho; split; reflexivity.
Qed.

Lemma createExpense_single_call_sample :
  (trace (snd (createExpense Sample.draft [] Sample.up)) = [InsertExpense Sample.draft] /\
   receipts (snd (createExpense Sample.draft [] Sample.up)) = receipts Sample.up /\
   bucket (snd (createExpense Sample.draft [] Sample.up)) = bucket Sample.up) /\
  (fst (createExpense Sample.draft [Sample.scan] Sample.down)
   = Throw (ThrownBackend Sample.unreachable) /\
   expenses (snd (createExpense Sample.draft [Sample.scan] Sample.down))
   = expenses Sample.down).
Proof.
  split.
  - apply (proj1 (createExpense_single_call Sample.draft [] Sample.up)).
    left. reflexivity.
  - apply (proj2 (createExpense_single_call Sample.draft [Sample.scan] Sample.down)
             Sample.unreachable).
    left. reflexivity.
Defined.

(** X8. When the expense and every file went through and the insertion of the
    receipts is refused, its error is raised and nothing is undone: the
    expense row and the uploaded files stay, without any receipt row. *)
Theorem createExpense_receipts_refused (expense : Expense.t) (files : list File.t)
  (w : World) (e : BackendError) :
  files <> [] ->
  served (1 + length files) w ->
  nth (1 + length files) (plan w) Succeed = Fail e \/
  nth (1 + length files) (plan w) Succeed = Reject e ->
  fst (createExpense expense files w) = Throw (ThrownBackend e) /\
  expenses (snd (createExpense expense files w))
  = (expenses w ++ [stored_expense w expense])%list /\
  receipts (snd (createExpense expense files w)) = receipts w /\
  exists paths,
    bucket (snd (createExpense expense files w)) = (bucket w ++ combine paths files)%list /\
    length paths = length files.
Proof.
  intros Hne Hs Hlast.
  unfold createExpense, try_catch, bind, request.
  rewrite (served_next _ _ Hs).
  cbn [serve_insert_expense unwrap error answered data ret].
  set (row := stored_expense (issue (InsertExpense expense) w) expense).
  set (w1 := with_next_id _ _).
  destruct files as [|f files]; [congruence |].
  assert (Hs1 : served (length (f :: files)) w1)
    by (apply (served_after _ w); [exact Hs | reflexivity]).
  cbn [length Nat.ltb Nat.leb]. unfold upload_all.
  rewrite (start_uploads_served row (f :: files) 0 w1 Hs1).
  unfold promise_all. rewrite all_fulfilled_map_Ok.
  destruct (uploaded_spec (Expense.id row) (f :: files) 0 w1)
    as (He & Hr & _ & _ & _ & _ & Hp & Hb).
  set (w2 := uploaded (Expense.id row) 0 (f :: files) w1) in *.
  assert (Ho2 : next_outcome w2 = nth (1 + length (f :: files)) (plan w) Succeed).
  { unfold next_outcome. rewrite Hp, hd_skipn.
    change (plan w1) with (tl (plan w)).
    destruct (plan w); [destruct (length (f :: files)) |]; reflexivity. }
  rewrite Ho2.
  destruct Hlast as [Hl | Hl]; rewrite Hl;
    cbn [error failed fst snd throw expenses receipts bucket issue];
    rewrite He, Hr, Hb;
    (split; [reflexivity |]); (split; [reflexivity |]); (split; [reflexivity |]);
    eexists; (split; [reflexivity |]);
    rewrite length_map; apply receipts_for_length.
Qed.

Lemma createExpense_receipts_refused_sample :
  fst (createExpense Sample.draft [Sample.scan] Sample.down_after_two)
  = Throw (ThrownBackend Sample.unreachable) /\
  expenses (snd (createExpense Sample.draft [Sample.scan] Sample.down_after_two))
  = (expenses Sample.down_after_two
     ++ [stored_expense Sample.down_after_two Sample.draft])%list /\
  receipts (snd (createExpense Sample.draft [Sample.scan] Sample.down_after_two))
  = receipts Sample.down_after_two /\
  exists paths,
    bucket (snd (createExpense Sample.draft [Sample.scan] Sample.down_after_two))
    = (bucket Sample.down_after_two ++ combine paths [Sample.scan])%list /\
    length paths = 1%nat.
Proof.
  apply (createExpense_receipts_refused Sample.draft [Sample.scan]
           Sample.down_after_two Sample.unreachable).
  - discriminate.
  - intros [|[|i]] Hi; [reflexivity | reflexivity | simpl in Hi; lia].
  - left. reflexivity.
Defined.

(** ** Insert then look up *)

Lemma filter_all {A} (f : A -> bool) (l : list A) :
  (forall x, In x l -> f x = true) -> filter f l = l.
Proof.
  induction l as [|a l IH]; simpl; intros H; [reflexivity |].
  rewrite (H a (or_introl eq_refl)). f_equal. apply IH. intros x Hx. apply H. right. exact Hx.
Qed.

Lemma filter_none {A} (f : A -> bool) (l : list A) :
  (forall x, In x l -> f x = false) -> filter f l = [].
Proof.
  induction l as [|a l IH]; simpl; intros H; [reflexivity |].
  rewrite (H a (or_introl eq_refl)). apply IH. intros x Hx. apply H. right. exact Hx.
Qed.

Lemma has_id_not (i : string) (o : option string) : o <> Some i -> has_id i o = false.
Proof.
  intros H. apply not_true_iff_false. rewrite has_id_true. exact H.
Qed.

Lemma fetchExpenseById_single (id : string) (e : Expense.t) (w : World) :
  next_outcome w = Succeed ->
  filter (fun x => has_id id (Expense.id x)) (expenses w) = [e] ->
  fst (fetchExpenseById id w) = Ok (Some (embed w e)).
Proof.
  intros Ho He. unfold fetchExpenseById, bind, request, serve_select_expense.
  rewrite Ho. cbn [expenses issue]. rewrite He. reflexivity.
Qed.

(** X9. An expense created on a backend that serves every call, under an id no
    stored expense or receipt uses, is what [fetchExpenseById] then returns
    for that id, with one receipt per submitted file, in order. *)
Theorem create_then_fetch_by_id (expense : Expense.t) (files : list File.t)
  (w : World) (id : string) :
  healthy w ->
  Expense.id (stored_expense w expense) = Some id ->
  (forall e, In e (expenses w) -> Expense.id e <> Some id) ->
  (forall r, In r (receipts w) -> Receipt.expense_id r <> Some id) ->
  exists v,
    fst (fetchExpenseById id (snd (createExpense expense files w))) = Ok (Some v) /\
    ExpenseView.expense v = stored_expense w expense /\
    map Receipt.file_name (ExpenseView.receipts v) = map File.name files.
Proof.
  intros Hh Hid Hexp Hrec.
  destruct (createExpense_served expense files w (Hh _)) as (w1 & _ & He & Hr & _ & Hp).
  set (w' := snd (createExpense expense files w)) in *.
  assert (Ho : next_outcome w' = Succeed).
  { unfold next_outcome. rewrite Hp, hd_skipn. eapply Hh. apply Nat.lt_succ_diag_r. }
  assert (Hf : filter (fun x => has_id id (Expense.id x)) (expenses w')
               = [stored_expense w expense]).
  { rewrite He, filter_app, (no_match_id id _ Hexp). cbn [filter app].
    rewrite (proj2 (has_id_true id _) Hid). reflexivity. }
  exists (embed w' (stored_expense w expense)).
  split; [apply fetchExpenseById_single; assumption |].
  split; [reflexivity |].
  cbn [embed ExpenseView.receipts]. rewrite Hid, Hr, filter_app.
  rewrite (filter_none _ (receipts w))
    by (intros r Hin; apply has_id_not, Hrec, Hin).
  destruct (stored_receipts_fields w1
              (receipts_for (Expense.id (stored_expense w expense)) (now w) 0 files) 0)
    as (H1 & H2 & _).
  destruct (receipts_for_fields (Expense.id (stored_expense w expense)) (now w) files 0)
    as (G1 & G2 & _).
  rewrite filter_all.
  - cbn [app]. rewrite H2, G2. reflexivity.
  - intros r Hin. apply has_id_true.
    apply (in_map Receipt.expense_id) in Hin. rewrite H1, G1 in Hin.
    apply in_map_iff in Hin. destruct Hin as (_ & Heq & _).
    rewrite <- Heq. exact Hid.
Qed.

Lemma create_then_fetch_by_id_sample :
  exists v,
    fst (fetchExpenseById "7"
           (snd (createExpense Sample.draft [Sample.scan; Sample.photo] Sample.up)))
    = Ok (Some v) /\
    ExpenseView.expense v = stored_expense Sample.up Sample.draft /\
    map Receipt.file_name (ExpenseView.receipts v) = ["scan.pdf"; "photo.jpg"].
Proof.
  apply (create_then_fetch_by_id Sample.draft [Sample.scan; Sample.photo] Sample.up "7").
  - intros k i _. destruct i; reflexivity.
  - reflexivity.
  - intros e He. simpl in He.
    destruct He as [<- | [<- | [<- | [<- | []]]]]; discriminate.
  - intros r Hr. simpl in Hr.
    destruct Hr as [<- | [<- | [<- | []]]]; discriminate.
Defined.

(** ** Updates and deletion: rows and ids *)

Lemma map_update_row_absent (id : string) (u : UpdateData) (rows : list Expense.t) :
  (forall e, In e rows -> Expense.id e <> Some id) ->
  map (update_row id u) rows = rows.
Proof.
  intros H. induction rows as [|e rows IH]; simpl; [reflexivity |].
  unfold update_row at 1. rewrite (has_id_not id _ (H e (or_introl eq_refl))).
  f_equal. apply IH. intros x Hx. apply H. right. exact Hx.
Qed.

(** X10. Updating the status or the payment status of an id that no expense has
    is served like any other update: the result is the empty list of rows
    and the table is unchanged. *)
Theorem update_absent_id (id : string) (w : World) :
  next_outcome w = Succeed ->
  (forall e, In e (expenses w) -> Expense.id e <> Some id) ->
  (forall st reason,
     fst (updateExpenseStatus id st reason w) = Ok (Some []) /\
     expenses (snd (updateExpenseStatus id st reason w)) = expenses w) /\
  (forall isPaid,
     fst (updatePaymentStatus id isPaid w) = Ok (Some []) /\
     expenses (snd (updatePaymentStatus id isPaid w)) = expenses w).
Proof.
  intros Ho Habs.
  unfold next_outcome in Ho.
  split; [intros st reason | intros isPaid; destruct isPaid];
    unfold updateExpenseStatus, updatePaymentStatus, try_catch, bind, new_Date, request,
      serve_update_expense, next_outcome;
    cbn [ret plan with_clock]; rewrite Ho;
    cbn [unwrap error answered data ret fst snd expenses issue with_expenses];
    rewrite (map_update_row_absent id _ _ Habs), (no_match_id id _ Habs);
    split; reflexivity.
Qed.

Lemma update_absent_id_sample :
  (fst (updateExpenseStatus "zz" approved None Sample.up) = Ok (Some []) /\
   expenses (snd (updateExpenseStatus "zz" approved None Sample.up)) = expenses Sample.up) /\
  (fst (updatePaymentStatus "zz" true Sample.up) = Ok (Some []) /\
   expenses (snd (updatePaymentStatus "zz" true Sample.up)) = expenses Sample.up).
Proof.
  assert (H : forall e, In e (expenses Sample.up) -> Expense.id e <> Some "zz").
  { intros e He. simpl in He.
    destruct He as [<- | [<- | [<- | [<- | []]]]]; discriminate. }
  split.
  - apply (proj1 (update_absent_id "zz" Sample.up eq_refl H)).
  - apply (proj2 (update_absent_id "zz" Sample.up eq_refl H)).
Defined.

(** X11. What a served [updatePaymentStatus] does to each row: a row with
    the id gets [payment_status] paid and [paid_at] the instant of the first
    [new Date()], or pending and null, and as [updated_at] the instant of
    the last [new Date()], which is later than [paid_at] by the time the
    clock moved on in between; every other field of the row is kept,
    whatever the status is. Every other row is left as it was. *)
Theorem updatePaymentStatus_rows (id : string) (isPaid : bool) (w : World) :
  next_outcome w = Succeed ->
  Forall2
    (fun e e' =>
       if has_id id (Expense.id e)
       then e' = {| Expense.id := Expense.id e;
                    Expense.user_id := Expense.user_id e;
                    Expense.name := Expense.name e;
                    Expense.description := Expense.description e;
                    Expense.amount := Expense.amount e;
                    Expense.purpose := Expense.purpose e;
                    Expense.cost_center_id := Expense.cost_center_id e;
                    Expense.category_id := Expense.category_id e;
                    Expense.payment_date := Expense.payment_date e;
                    Expense.status := Expense.status e;
                    Expense.payment_status :=
                      Some (if isPaid then paid else payment_pending);
                    Expense.paid_at := if isPaid then Some (now w) else None;
                    Expense.rejection_reason := Expense.rejection_reason e;
                    Expense.submitted_date := Expense.submitted_date e;
                    Expense.updated_at :=
                      Some (if isPaid then now w + hd 0 (clock_steps w) else now w) |}
       else e' = e)
    (expenses w) (expenses (snd (updatePaymentStatus id isPaid w))).
Proof.
  intros Ho. rewrite updatePaymentStatus_expenses, Ho.
  induction (expenses w) as [|e rows IH]; simpl; constructor; [| exact IH].
  unfold update_row. destruct (has_id id (Expense.id e)); reflexivity.
Qed.

Lemma updatePaymentStatus_rows_sample :
  Forall2
    (fun e e' =>
       if has_id "b" (Expense.id e)
       then e' = {| Expense.id := Expense.id e;
                    Expense.user_id := Expense.user_id e;
                    Expense.name := Expense.name e;
                    Expense.description := Expense.description e;
                    Expense.amount := Expense.amount e;
                    Expense.purpose := Expense.purpose e;
                    Expense.cost_center_id := Expense.cost_center_id e;
                    Expense.category_id := Expense.category_id e;
                    Expense.payment_date := Expense.payment_date e;
                    Expense.status := Expense.status e;
                    Expense.payment_status := Some paid;
                    Expense.paid_at := Some 100;
                    Expense.rejection_reason := Expense.rejection_reason e;
                    Expense.submitted_date := Expense.submitted_date e;
                    Expense.updated_at := Some 102 |}
       else e' = e)
    (expenses Sample.ticking)
    (expenses (snd (updatePaymentStatus "b" true Sample.ticking))).
Proof.
  apply (updatePaymentStatus_rows "b" true Sample.ticking). reflexivity.
Defined.

(** X12. What a served [updateExpenseStatus] does to each row: a row with
    the id gets the new status, the instant of [new Date()] as its
    [updated_at] and, when the status is [rejected] and a reason that is
    not empty is given, that reason; every other field of the row, the
    payment fields among them, is kept. Every other row is left as it was. *)
Theorem updateExpenseStatus_rows (id : string) (st : Status) (reason : option string)
  (w : World) :
  next_outcome w = Succeed ->
  Forall2
    (fun e e' =>
       if has_id id (Expense.id e)
       then e' = {| Expense.id := Expense.id e;
                    Expense.user_id := Expense.user_id e;
                    Expense.name := Expense.name e;
                    Expense.description := Expense.description e;
                    Expense.amount := Expense.amount e;
                    Expense.purpose := Expense.purpose e;
                    Expense.cost_center_id := Expense.cost_center_id e;
                    Expense.category_id := Expense.category_id e;
                    Expense.payment_date := Expense.payment_date e;
                    Expense.status := st;
                    Expense.payment_status := Expense.payment_status e;
                    Expense.paid_at := Expense.paid_at e;
                    Expense.rejection_reason := reason_after st reason e;
                    Expense.submitted_date := Expense.submitted_date e;
                    Expense.updated_at := Some (now w) |}
       else e' = e)
    (expenses w) (expenses (snd (updateExpenseStatus id st reason w))).
Proof.
  intros Ho. rewrite updateExpenseStatus_expenses, Ho.
  induction (expenses w) as [|e rows IH]; simpl; constructor; [| exact IH].
  unfold update_row, reason_after. destruct (has_id id (Expense.id e)); [| reflexivity].
  unfold apply_update. cbn.
  destruct reason as [r|];
    [destruct (Status_eqb st rejected && Js.truthy_opt (Some r)) | rewrite andb_false_r];
    reflexivity.
Qed.

Lemma updateExpenseStatus_rows_sample :
  Forall2
    (fun e e' =>
       if has_id "b" (Expense.id e)
       then e' = {| Expense.id := Expense.id e;
                    Expense.user_id := Expense.user_id e;
                    Expense.name := Expense.name e;
                    Expense.description := Expense.description e;
                    Expense.amount := Expense.amount e;
                    Expense.purpose := Expense.purpose e;
                    Expense.cost_center_id := Expense.cost_center_id e;
                    Expense.category_id := Expense.category_id e;
                    Expense.payment_date := Expense.payment_date e;
                    Expense.status := approved;
                    Expense.payment_status := Expense.payment_status e;
                    Expense.paid_at := Expense.paid_at e;
                    Expense.rejection_reason := Expense.rejection_reason e;
                    Expense.submitted_date := Expense.submitted_date e;
                    Expense.updated_at := Some 100 |}
       else e' = e)
    (expenses Sample.up) (expenses (snd (updateExpenseStatus "b" approved None Sample.up))).
Proof.
  apply (updateExpenseStatus_rows "b" approved None Sample.up). reflexivity.
Defined.

(** X13. A refused update raises the backend's error and writes nothing. *)
Theorem update_refused (id : string) (w : World) (e : BackendError) :
  next_outcome w = Fail e \/ next_outcome w = Reject e ->
  (forall st reason,
     fst (updateExpenseStatus id st reason w) = Throw (ThrownBackend e) /\
     expenses (snd (updateExpenseStatus id st reason w)) = expenses w) /\
  (forall isPaid,
     fst (updatePaymentStatus id isPaid w) = Throw (ThrownBackend e) /\
     expenses (snd (updatePaymentStatus id isPaid w)) = expenses w).
Proof.
  intros Ho.
  unfold next_outcome in Ho.
  split; [intros st reason | intros isPaid; destruct isPaid];
    unfold updateExpenseStatus, updatePaymentStatus, try_catch, bind, new_Date, request,
      next_outcome;
    cbn [ret plan with_clock]; destruct Ho as [Ho | Ho]; rewrite Ho; split; reflexivity.
Qed.

Lemma update_refused_sample :
  (fst (updateExpenseStatus "a" approved None Sample.down)
   = Throw (ThrownBackend Sample.unreachable) /\
   expenses (snd (updateExpenseStatus "a" approved None Sample.down))
   = expenses Sample.down) /\
  (fst (updatePaymentStatus "a" true Sample.down)
   = Throw (ThrownBackend Sample.unreachable) /\
   expenses (snd (updatePaymentStatus "a" true Sample.down)) = expenses Sample.down).
Proof.
  split.
  - apply (proj1 (update_refused "a" Sample.down Sample.unreachable
                    (or_introl eq_refl))).
  - apply (proj2 (update_refused "a" Sample.down Sample.unreachable
                    (or_introl eq_refl))).
Defined.

Lemma deleteExpense_served (id : string) (w : World) :
  served 2 w ->
  fst (deleteExpense id w) = Ok true /\
  expenses (snd (deleteExpense id w))
  = filter (fun e => negb (has_id id (Expense.id e))) (expenses w) /\
  receipts (snd (deleteExpense id w))
  = filter (fun r => negb (has_id id (Receipt.expense_id r))) (receipts w) /\
  plan (snd (deleteExpense id w)) = skipn 2 (plan w).
Proof.
  intros Hs.
  unfold deleteExpense, try_catch, bind, request.
  rewrite (served_next _ _ Hs).
  cbn [serve_delete_receipts error answered].
  set (w1 := with_receipts _ _).
  assert (Ho1 : next_outcome w1 = Succeed).
  { apply (served_next 0). apply (served_after _ w); [exact Hs | reflexivity]. }
  rewrite Ho1. cbn. repeat split.
  destruct (plan w) as [|o [|o' l]]; reflexivity.
Qed.

(** X14. Deleting an id that no expense and no receipt uses is served and
    returns [true]; no row is removed. *)
Theorem deleteExpense_absent_id (id : string) (w : World) :
  served 2 w ->
  (forall e, In e (expenses w) -> Expense.id e <> Some id) ->
  (forall r, In r (receipts w) -> Receipt.expense_id r <> Some id) ->
  fst (deleteExpense id w) = Ok true /\
  expenses (snd (deleteExpense id w)) = expenses w /\
  receipts (snd (deleteExpense id w)) = receipts w.
Proof.
  intros Hs He Hr.
  destruct (deleteExpense_served id w Hs) as (H1 & H2 & H3 & _).
  rewrite H1, H2, H3. split; [reflexivity |]. split; apply filter_all.
  - intros e Hin. apply has_id_false, He, Hin.
  - intros r Hin. apply has_id_false, Hr, Hin.
Qed.

Lemma deleteExpense_absent_id_sample :
  fst (deleteExpense "zz" Sample.up) = Ok true /\
  expenses (snd (deleteExpense "zz" Sample.up)) = expenses Sample.up /\
  receipts (snd (deleteExpense "zz" Sample.up)) = receipts Sample.up.
Proof.
  apply (deleteExpense_absent_id "zz" Sample.up).
  - intros [|[|i]] Hi; reflexivity.
  - intros e He. simpl in He.
    destruct He as [<- | [<- | [<- | [<- | []]]]]; discriminate.
  - intros r Hr. simpl in Hr.
    destruct Hr as [<- | [<- | [<- | []]]]; discriminate.
Defined.

(** X15. Deleting the same expense a second time changes nothing more and
    returns [true] again. *)
Theorem deleteExpense_twice (id : string) (w : World) :
  served 4 w ->
  fst (deleteExpense id (snd (deleteExpense id w))) = Ok true /\
  expenses (snd (deleteExpense id (snd (deleteExpense id w))))
  = expenses (snd (deleteExpense id w)) /\
  receipts (snd (deleteExpense id (snd (deleteExpense id w))))
  = receipts (snd (deleteExpense id w)).
Proof.
  intros Hs.
  assert (Hs2 : served 2 w) by (intros i Hi; apply Hs; lia).
  destruct (deleteExpense_served id w Hs2) as (_ & He & Hr & Hp).
  set (w1 := snd (deleteExpense id w)) in *.
  assert (Hs1 : served 2 w1).
  { intros i Hi. rewrite Hp.
    rewrite <- (hd_skipn Succeed), skipn_skipn, hd_skipn. apply Hs. lia. }
  destruct (deleteExpense_served id w1 Hs1) as (H1 & H2 & H3 & _).
  rewrite H1, H2, H3, He, Hr. split; [reflexivity |].
  split; apply filter_all; intros x Hx; apply filter_In in Hx; apply Hx.
Qed.

Lemma deleteExpense_twice_sample :
  fst (deleteExpense "a" (snd (deleteExpense "a" Sample.up))) = Ok true /\
  expenses (snd (deleteExpense "a" (snd (deleteExpense "a" Sample.up))))
  = expenses (snd (deleteExpense "a" Sample.up)) /\
  receipts (snd (deleteExpense "a" (snd (deleteExpense "a" Sample.up))))
  = receipts (snd (deleteExpense "a" Sample.up)).
Proof.
  apply (deleteExpense_twice "a" Sample.up).
  intros [|[|[|[|i]]]] Hi; reflexivity.
Defined.

(** ** Profile resolution, path by path *)

(** Takes the branch that hypothesis [H] selects. *)
Ltac follow H :=
  cbn beta iota;
  cbn [env world users plan auth_user issue with_users with_world fst snd
       data error answered failed];
  rewrite H;
  cbn beta iota;
  cbn [env world users plan auth_user issue with_users with_world fst snd
       data error answered failed].

Lemma fetchUserProfile_found (userId : string) (p : Profile.t) (a : App) :
  env_missing (env a) = false ->
  next_outcome (world a) = Succeed ->
  filter (fun q => (Profile.id q =? userId)%string) (users (world a)) = [p] ->
  profile (snd (fetchUserProfile userId a)) = Some p /\
  users (world (snd (fetchUserProfile userId a))) = users (world a) /\
  trace (world (snd (fetchUserProfile userId a)))
  = (trace (world a) ++ [SelectUser userId])%list /\
  (forall l, Profile.roles p = RolesArray l ->
     userRoles (snd (fetchUserProfile userId a)) = l /\
     isAdmin (snd (fetchUserProfile userId a)) = Js.includes l "admin") /\
  (forall r, Profile.roles p = RolesNull -> Profile.role p = Some r -> r <> "" ->
     userRoles (snd (fetchUserProfile userId a)) = [r] /\
     isAdmin (snd (fetchUserProfile userId a)) = (r =? "admin")%string) /\
  (Profile.roles p = RolesNull -> Js.truthy_opt (Profile.role p) = false ->
     userRoles (snd (fetchUserProfile userId a)) = ["user"] /\
     isAdmin (snd (fetchUserProfile userId a)) = false).
Proof.
  intros He Ho Hf. unfold_profile.
  follow He. follow Ho. follow Hf.
  cbn [fst snd profile userRoles isAdmin world users trace issue].
  repeat apply conj; try reflexivity.
  - intros l Hl. unfold resolved_roles. rewrite Hl. split; reflexivity.
  - intros r Hn Hr Hne. unfold resolved_roles. rewrite Hn, Hr.
    apply String.eqb_neq in Hne.
    cbn [Js.truthy_opt text_of]. unfold Js.truthy. rewrite Hne.
    cbn [negb admin_of roles_of Js.includes existsb].
    rewrite orb_false_r. split; [reflexivity | apply String.eqb_sym].
  - intros Hn Hr. unfold resolved_roles. rewrite Hn, Hr. split; reflexivity.
Qed.

(** X16. The profile exists: with the environment configured and the read
    served, a user with exactly one [users] row gets that row as profile
    after a single call; nothing is inserted. The roles are the [roles]
    array of the row when it has one, whatever its [role]; without the
    array, the [role] alone when it is not empty, else ["user"]. *)
Theorem fetchUserProfile_existing (userId : string) (p : Profile.t) (a : App) :
  env_missing (env a) = false ->
  next_outcome (world a) = Succeed ->
  filter (fun q => (Profile.id q =? userId)%string) (users (world a)) = [p] ->
  profile (snd (fetchUserProfile userId a)) = Some p /\
  users (world (snd (fetchUserProfile userId a))) = users (world a) /\
  trace (world (snd (fetchUserProfile userId a)))
  = (trace (world a) ++ [SelectUser userId])%list /\
  (forall l, Profile.roles p = RolesArray l ->
     userRoles (snd (fetchUserProfile userId a)) = l /\
     isAdmin (snd (fetchUserProfile userId a)) = Js.includes l "admin") /\
  (forall r, Profile.roles p = RolesNull -> Profile.role p = Some r -> r <> "" ->
     userRoles (snd (fetchUserProfile userId a)) = [r] /\
     isAdmin (snd (fetchUserProfile userId a)) = (r =? "admin")%string) /\
  (Profile.roles p = RolesNull -> Js.truthy_opt (Profile.role p) = false ->
     userRoles (snd (fetchUserProfile userId a)) = ["user"] /\
     isAdmin (snd (fetchUserProfile userId a)) = false).
Proof.
  exact (fetchUserProfile_found userId p a).
Qed.

Lemma fetchUserProfile_existing_sample :
  let a' := snd (fetchUserProfile "u1" (mount Sample.config Sample.up)) in
  profile a' = Some Sample.ana /\
  users (world a') = users Sample.up /\
  trace (world a') = [SelectUser "u1"] /\
  userRoles a' = ["approver"] /\
  isAdmin a' = false.
Proof.
  destruct (fetchUserProfile_existing "u1" Sample.ana (mount Sample.config Sample.up)
              eq_refl eq_refl eq_refl) as (Hp & Hu & Ht & Hl & _).
  destruct (Hl ["approver"] eq_refl) as [Hr Ha].
  repeat split; assumption.
Defined.

(** Steps of a run whose outcome is known. *)
Lemma bind_ok {S A B} (m : M S A) (k : A -> M S B) (s s' : S) (a : A) :
  m s = (Ok a, s') -> bind m k s = k a s'.
Proof.
  unfold bind. intros ->. reflexivity.
Qed.

Lemma backend_served {A} (c : Call) (serve : World -> Response A * World) (b : App) :
  next_outcome (world b) = Succeed ->
  backend (request c serve) b
  = (Ok (fst (serve (issue c (world b)))),
     with_world (snd (serve (issue c (world b)))) b).
Proof.
  intros H. unfold backend, request. rewrite H.
  destruct (serve (issue c (world b))); reflexivity.
Qed.

Lemma bind_throw {S A B} (m : M S A) (k : A -> M S B) (s s' : S) (x : Exn) :
  m s = (Throw x, s') -> bind m k s = (Throw x, s').
Proof.
  unfold bind. intros ->. reflexivity.
Qed.

Lemma backend_failed {A} (c : Call) (serve : World -> Response A * World) (b : App)
  (e : BackendError) :
  next_outcome (world b) = Fail e ->
  backend (request c serve) b = (Ok (failed e), with_world (issue c (world b)) b).
Proof.
  intros H. unfold backend, request. rewrite H. reflexivity.
Qed.

Lemma backend_rejected {A} (c : Call) (serve : World -> Response A * World) (b : App)
  (e : BackendError) :
  next_outcome (world b) = Reject e ->
  backend (request c serve) b
  = (Throw (ThrownBackend e), with_world (issue c (world b)) b).
Proof.
  intros H. unfold backend, request. rewrite H. reflexivity.
Qed.

Lemma served_issue (k : nat) (c : Call) (w : World) :
  served (S k) w -> served k (issue c w).
Proof.
  intros H. apply (served_after k w); [exact H | reflexivity].
Qed.

Lemma create_profile_served (userId : string) (u : AuthUser.t) (b : App) :
  served 3 (world b) ->
  auth_user (world b) = Some u ->
  filter (fun q => (Profile.id q =? userId)%string) (users (world b)) = [] ->
  exists b',
    create_profile userId b = (Ok true, b') /\
    users (world b') = (users (world b) ++ [default_profile userId u])%list /\
    profile b' = Some (default_profile userId u) /\
    userRoles b' = ["user"] /\
    isAdmin b' = false /\
    trace (world b')
    = (trace (world b) ++ [GetUser; InsertUser (default_profile userId u);
                           SelectUser userId])%list.
Proof.
  intros Hs Hu Hf.
  eexists. split.
  - unfold create_profile.
    erewrite bind_ok by (apply backend_served, (served_next _ _ Hs)).
    cbn [serve_get_user fst snd data auth_user issue]. rewrite Hu.
    fold (default_profile userId u).
    erewrite bind_ok.
    2: { apply backend_served. cbn [world with_world].
         apply (served_next 1), served_issue, Hs. }
    cbn [serve_insert_user fst snd error answered world with_world].
    erewrite bind_ok.
    2: { apply backend_served. cbn [world with_world].
         apply (served_next 0). 
         apply (served_after 1 (issue GetUser (world b))); [apply served_issue, Hs | reflexivity]. }
    unfold serve_select_user.
    cbn [world with_world users issue with_users].
    rewrite filter_app, Hf. cbn [filter app default_profile Profile.id].
    rewrite String.eqb_refl. cbn [fst snd data answered].
    reflexivity.
  - cbn. rewrite <- !app_assoc. repeat split.
Qed.

Lemma try_catch_ok {S A} (m : M S A) (h : Exn -> M S A) (s s' : S) (a : A) :
  m s = (Ok a, s') -> try_catch m h s = (Ok a, s').
Proof.
  unfold try_catch. intros ->. reflexivity.
Qed.

Lemma try_finally_run {S A} (m : M S A) (f : M S unit) (s s' s'' : S) (r : Res A) :
  m s = (r, s') -> f s' = (Ok tt, s'') -> try_finally m f s = (r, s'').
Proof.
  unfold try_finally. intros -> ->. reflexivity.
Qed.

(** X17. The profile is missing: with the environment configured, the calls
    served and an auth identity at hand, a user without [users] row gets
    one, made of the identity's name (or its email) and email with the role
    ["user"], and that row becomes the profile. *)
Theorem fetchUserProfile_creates_profile (userId : string) (u : AuthUser.t) (a : App) :
  env_missing (env a) = false ->
  served 4 (world a) ->
  (forall q, In q (users (world a)) -> Profile.id q <> userId) ->
  auth_user (world a) = Some u ->
  users (world (snd (fetchUserProfile userId a)))
  = (users (world a) ++ [default_profile userId u])%list /\
  profile (snd (fetchUserProfile userId a)) = Some (default_profile userId u) /\
  userRoles (snd (fetchUserProfile userId a)) = ["user"] /\
  isAdmin (snd (fetchUserProfile userId a)) = false /\
  trace (world (snd (fetchUserProfile userId a)))
  = (trace (world a)
     ++ [SelectUser userId; GetUser; InsertUser (default_profile userId u);
         SelectUser userId])%list.
Proof.
  intros He Hs Hnone Hu.
  assert (Hf : filter (fun q => (Profile.id q =? userId)%string) (users (world a)) = []).
  { apply filter_none. intros q Hq. apply String.eqb_neq, Hnone, Hq. }
  assert (Hrun : exists a',
            fetchUserProfile userId a = (Ok tt, a') /\
            users (world a') = (users (world a) ++ [default_profile userId u])%list /\
            profile a' = Some (default_profile userId u) /\
            userRoles a' = ["user"] /\ isAdmin a' = false /\
            trace (world a')
            = (trace (world a)
               ++ [SelectUser userId; GetUser; InsertUser (default_profile userId u);
                   SelectUser userId])%list).
  { unfold fetchUserProfile.
    erewrite bind_ok by reflexivity. cbn beta.
    match goal with
    | |- context [try_finally _ _ ?x] => set (a1 := x)
    end.
    destruct (create_profile_served userId u
                (with_world (issue (SelectUser userId) (world a1)) a1))
      as (b' & Hc & Hus & Hp & Hr & Ha & Ht).
    { apply served_issue. exact Hs. }
    { exact Hu. }
    { exact Hf. }
    eexists. split.
    - eapply try_finally_run; [| reflexivity].
      apply try_catch_ok.
      erewrite bind_ok by reflexivity. cbn beta.
      change (env a1) with (env a). rewrite He.
      erewrite bind_ok by reflexivity. cbn beta.
      erewrite bind_ok
        by (apply backend_served; apply (served_next 3); exact Hs).
      cbn beta. unfold serve_select_user.
      change (users (issue (SelectUser userId) (world a1))) with (users (world a)).
      rewrite Hf. cbn [fst snd error failed code].
      change (("PGRST116" =? "PGRST116")%string) with true. cbn iota.
      erewrite bind_ok by exact Hc.
      reflexivity.
    - unfold setIsLoading, modify.
      cbn [snd world users profile userRoles isAdmin].
      rewrite Hus, Hp, Hr, Ha, Ht. cbn. rewrite <- !app_assoc.
      repeat split. }
  destruct Hrun as (a' & Hrun & H1 & H2 & H3 & H4 & H5).
  rewrite Hrun. cbn [snd]. repeat split; assumption.
Qed.

Lemma fetchUserProfile_creates_profile_sample :
  let a' := snd (fetchUserProfile "u2" (mount Sample.config Sample.up)) in
  users (world a')
  = [Sample.ana;
     {| Profile.id := "u2"; Profile.name := Some "bob@example.com";
        Profile.email := Some "bob@example.com"; Profile.role := Some "user";
        Profile.roles := RolesArray ["user"] |}] /\
  userRoles a' = ["user"] /\ isAdmin a' = false.
Proof.
  destruct (fetchUserProfile_creates_profile "u2"
              {| AuthUser.id := "u2"; AuthUser.email := Some "bob@example.com";
                 AuthUser.metadata_name := None |}
              (mount Sample.config Sample.up)) as (Hu & _ & Hr & Ha & _).
  - reflexivity.
  - intros [|[|[|[|i]]]] Hi; reflexivity.
  - intros q [<- | []]. discriminate.
  - reflexivity.
  - split; [exact Hu | split; [exact Hr | exact Ha]].
Defined.

(** X18. The degraded exits: when the environment is not configured, when the
    read's promise rejects, or when the read reports an error other than
    PGRST116, the profile is null with the single role ["user"], nothing
    is inserted, and the backend has received the read at most. *)
Theorem fetchUserProfile_fallback (userId : string) (a : App) :
  env_missing (env a) = true \/
  (exists e, next_outcome (world a) = Reject e) \/
  (exists e, next_outcome (world a) = Fail e /\ code e <> "PGRST116") ->
  profile (snd (fetchUserProfile userId a)) = None /\
  userRoles (snd (fetchUserProfile userId a)) = ["user"] /\
  isAdmin (snd (fetchUserProfile userId a)) = false /\
  users (world (snd (fetchUserProfile userId a))) = users (world a) /\
  (trace (world (snd (fetchUserProfile userId a))) = trace (world a) \/
   trace (world (snd (fetchUserProfile userId a)))
   = (trace (world a) ++ [SelectUser userId])%list).
Proof.
  intros H. unfold_profile. cbn [env world].
  destruct (env_missing (env a)) eqn:He.
  - cbn. repeat split. left. reflexivity.
  - destruct H as [H | [[e H] | [e [H Hc]]]]; [discriminate | |].
    + follow H. cbn. repeat split. right. reflexivity.
    + follow H. cbn [fst snd error failed].
      apply String.eqb_neq in Hc. rewrite Hc.
      cbn. repeat split. right. reflexivity.
Qed.

Lemma fetchUserProfile_fallback_sample :
  let a' := snd (fetchUserProfile "u1" (mount Sample.config Sample.down)) in
  profile a' = None /\ userRoles a' = ["user"] /\ isAdmin a' = false /\
  users (world a') = users Sample.down /\
  (trace (world a') = [] \/ trace (world a') = [SelectUser "u1"]).
Proof.
  apply (fetchUserProfile_fallback "u1" (mount Sample.config Sample.down)).
  right. right. exists Sample.unreachable. split; [reflexivity | discriminate].
Defined.

(** ** Invariants of the provider *)

Lemma fetchUserProfile_no_profile (userId : string) (a : App) :
  profile (snd (fetchUserProfile userId a)) = None ->
  isAdmin (snd (fetchUserProfile userId a)) = false /\
  userRoles (snd (fetchUserProfile userId a)) = ["user"].
Proof.
  unfold_profile.
  all_paths; intros H; try discriminate H; split; reflexivity.
Qed.

Lemma handle_no_profile (ev : Event) (a : App) :
  (profile a = None ->
   isAdmin a = false /\ (userRoles a = [] \/ userRoles a = ["user"])) ->
  profile (snd (handle ev a)) = None ->
  isAdmin (snd (handle ev a)) = false /\
  (userRoles (snd (handle ev a)) = [] \/ userRoles (snd (handle ev a)) = ["user"]).
Proof.
  intros Inv. destruct ev as [s | s | v |]; simpl.
  - unfold onGetSession. run_monad.
    destruct (session_user s); [| exact Inv].
    intros H. destruct (fetchUserProfile_no_profile _ _ H) as [H1 H2].
    split; [exact H1 | right; exact H2].
  - unfold onAuthStateChange. run_monad.
    destruct (initialLoad a); [exact Inv |].
    destruct (session_user s).
    + intros H. destruct (fetchUserProfile_no_profile _ _ H) as [H1 H2].
      split; [exact H1 | right; exact H2].
    + intros _. split; [reflexivity | left; reflexivity].
  - destruct v; exact Inv.
  - unfold signOut, serve_sign_out. run_monad.
    all_paths; first [exact Inv | intros _; split; [reflexivity | left; reflexivity]].
Qed.

Lemma run_no_profile (evs : list Event) :
  forall a,
    (profile a = None ->
     isAdmin a = false /\ (userRoles a = [] \/ userRoles a = ["user"])) ->
    profile (run evs a) = None ->
    isAdmin (run evs a) = false /\
    (userRoles (run evs a) = [] \/ userRoles (run evs a) = ["user"]).
Proof.
  induction evs as [|ev evs IH]; intros a Inv; simpl; [exact Inv |].
  apply IH. apply handle_no_profile. exact Inv.
Qed.

(** X19. Without a loaded profile nobody is privileged: in every state the
    provider reaches, a null profile means that [isAdmin] is false and
    that [hasRole] holds for no role but the default ["user"]. *)
Theorem no_profile_no_privilege (e : Env) (w : World) (evs : list Event) (r : string) :
  profile (run evs (mount e w)) = None ->
  isAdmin (run evs (mount e w)) = false /\
  (hasRole (run evs (mount e w)) r = true -> r = "user").
Proof.
  intros H.
  destruct (run_no_profile evs (mount e w)) as [Ha Hr]; [| exact H |].
  - intros _. split; [reflexivity | left; reflexivity].
  - split; [exact Ha |].
    unfold hasRole. rewrite Ha.
    destruct Hr as [Hr | Hr]; rewrite Hr; cbn; [discriminate |].
    rewrite orb_false_r. apply String.eqb_eq.
Qed.

Lemma no_profile_no_privilege_sample :
  isAdmin (run [AuthEvent (Sample.signed_in "u1"); AuthEvent (Sample.signed_in "u1")]
             (mount Sample.config Sample.down)) = false /\
  (hasRole (run [AuthEvent (Sample.signed_in "u1"); AuthEvent (Sample.signed_in "u1")]
              (mount Sample.config Sample.down)) "approver" = true ->
   "approver" = "user").
Proof.
  apply (no_profile_no_privilege Sample.config Sample.down
           [AuthEvent (Sample.signed_in "u1"); AuthEvent (Sample.signed_in "u1")]
           "approver").
  vm_compute. reflexivity.
Defined.

Lemma fetchUserProfile_user (userId : string) (a : App) :
  user (snd (fetchUserProfile userId a)) = session_user (session (snd (fetchUserProfile userId a)))
  <-> user a = session_user (session a).
Proof.
  destruct (fetchUserProfile_frame userId a) as (Hs & Hu & _).
  rewrite Hs, Hu. reflexivity.
Qed.

Lemma handle_user_of_session (ev : Event) (a : App) :
  user a = session_user (session a) ->
  user (snd (handle ev a)) = session_user (session (snd (handle ev a))).
Proof.
  intros Inv. destruct ev as [s | s | v |]; simpl.
  - unfold onGetSession. run_monad.
    destruct (session_user s) eqn:Hs; [| cbn; symmetry; exact Hs].
    apply fetchUserProfile_user. cbn. symmetry. exact Hs.
  - unfold onAuthStateChange. run_monad.
    destruct (initialLoad a); [exact Inv |].
    destruct (session_user s) eqn:Hs; [| cbn; symmetry; exact Hs].
    apply fetchUserProfile_user. cbn. symmetry. exact Hs.
  - destruct v; exact Inv.
  - unfold signOut, serve_sign_out. run_monad.
    all_paths; first [exact Inv | reflexivity].
Qed.

(** X20. The user is always the user of the stored session: in every state the
    provider reaches, [user] equals [session?.user ?? null]. *)
Theorem user_is_session_user (e : Env) (w : World) (evs : list Event) :
  user (run evs (mount e w)) = session_user (session (run evs (mount e w))).
Proof.
  assert (H : forall l a, user a = session_user (session a) ->
                          user (run l a) = session_user (session (run l a))).
  { induction l as [|ev l IH]; intros a Ha; simpl; [exact Ha |].
    apply IH, handle_user_of_session, Ha. }
  apply H. reflexivity.
Qed.

(** X22. [signOut], in the state it leaves. When the call resolves, served
    or with an error, the six cells are set: session, user and profile are
    null, the admin and loading flags false, the roles empty, and in that
    state every role check fails. When
    the promise rejects, the exception escapes and [signOut] sets no cell.
    (What a profile read still in flight at that moment sets later is not
    part of the state [signOut] leaves.) *)
Theorem signOut_outcomes (a : App) :
  (next_outcome (world a) = Succeed \/ (exists e, next_outcome (world a) = Fail e) ->
   fst (signOut a) = Ok tt /\
   session (snd (signOut a)) = None /\ user (snd (signOut a)) = None /\
   profile (snd (signOut a)) = None /\ isAdmin (snd (signOut a)) = false /\
   userRoles (snd (signOut a)) = [] /\ isLoading (snd (signOut a)) = false /\
   forall r, hasRole (snd (signOut a)) r = false) /\
  (forall e,
     next_outcome (world a) = Reject e ->
     fst (signOut a) = Throw (ThrownBackend e) /\
     session (snd (signOut a)) = session a /\ user (snd (signOut a)) = user a /\
     profile (snd (signOut a)) = profile a /\ isAdmin (snd (signOut a)) = isAdmin a /\
     userRoles (snd (signOut a)) = userRoles a /\
     isLoading (snd (signOut a)) = isLoading a).
Proof.
  unfold signOut. split.
  - intros [H | [e H]].
    + erewrite bind_ok by (apply backend_served; exact H).
      vm_compute. repeat split.
    + erewrite bind_ok by (apply backend_failed; exact H).
      vm_compute. repeat split.
  - intros e H.
    erewrite bind_throw by (apply backend_rejected; exact H).
    repeat split.
Qed.

Lemma signOut_outcomes_sample :
  (fst (signOut (run [SessionLoaded (Sample.signed_in "u1")]
                   (mount Sample.config Sample.up))) = Ok tt /\
   forall r, hasRole (snd (signOut (run [SessionLoaded (Sample.signed_in "u1")]
                                      (mount Sample.config Sample.up)))) r = false) /\
  (fst (signOut (mount Sample.config (Sample.backend_with [Reject Sample.unreachable])))
   = Throw (ThrownBackend Sample.unreachable)).
Proof.
  split.
  - destruct (proj1 (signOut_outcomes
                       (run [SessionLoaded (Sample.signed_in "u1")]
                          (mount Sample.config Sample.up))))
      as (H1 & _ & _ & _ & _ & _ & _ & H2).
    + left. vm_compute. reflexivity.
    + split; [exact H1 | exact H2].
  - apply (proj2 (signOut_outcomes
                    (mount Sample.config (Sample.backend_with [Reject Sample.unreachable])))
             Sample.unreachable).
    reflexivity.
Defined.




(** ** Signing up *)

Lemma healthy_next (w : World) : healthy w -> next_outcome w = Succeed.
Proof.
  intros H. apply (served_next 0). apply H.
Qed.

Lemma healthy_after (k : nat) (w w' : World) :
  healthy w -> plan w' = skipn k (plan w) -> healthy w'.
Proof.
  intros H Hp n i _. rewrite Hp.
  rewrite <- (hd_skipn Succeed i), skipn_skipn, hd_skipn.
  apply (H (S (i + k))). apply Nat.lt_succ_diag_r.
Qed.

Ltac plan_skipped w :=
  cbn; destruct (plan w) as [|? [|? [|? [|? ?]]]]; reflexivity.

Lemma auth_request_served {A} (c : AuthCall) (serve : Portal -> Response A * Portal)
  (p : Portal) :
  next_outcome (base p) = Succeed ->
  auth_request c serve p
  = (Ok (fst (serve {| base := use_outcome (base p); auth_calls := auth_calls p ++ [c];
                       on_signup := on_signup p |})),
     snd (serve {| base := use_outcome (base p); auth_calls := auth_calls p ++ [c];
                   on_signup := on_signup p |})).
Proof.
  intros H. unfold auth_request. rewrite H.
  destruct (serve _); reflexivity.
Qed.

Lemma base_call_served {A} (c : Call) (serve : World -> Response A * World) (p : Portal) :
  next_outcome (base p) = Succeed ->
  base_call (request c serve) p
  = (Ok (fst (serve (issue c (base p)))), with_base (snd (serve (issue c (base p)))) p).
Proof.
  intros H. unfold base_call, request. rewrite H.
  destruct (serve (issue c (base p))); reflexivity.
Qed.

Lemma map_unmatched (id : string) (f : Profile.t -> Profile.t) (l : list Profile.t) :
  (forall q, In q l -> Profile.id q <> id) ->
  map (fun q => if (Profile.id q =? id)%string then f q else q) l = l.
Proof.
  intros H. induction l as [|q l IH]; simpl; [reflexivity |].
  rewrite (proj2 (String.eqb_neq _ _) (H q (or_introl eq_refl))).
  f_equal. apply IH. intros x Hx. apply H. right. exact Hx.
Qed.

Lemma signUp_served (email password name role : string) (p : Portal) :
  healthy (base p) ->
  (forall q, In q (users (base p)) ->
             Profile.id q <> AuthUser.id (new_identity email name p)) ->
  on_signup p (new_identity email name p) = [] \/
  (exists q, on_signup p (new_identity email name p) = [q] /\
             Profile.id q = AuthUser.id (new_identity email name p)) ->
  exists p' row,
    signUp email password name role p
    = (Ok {| su_data := Some (new_identity email name p); su_error := None |}, p') /\
    healthy (base p') /\
    filter (fun q => (Profile.id q =? AuthUser.id (new_identity email name p))%string)
      (users (base p')) = [row] /\
    Profile.roles row = RolesArray [role] /\
    (on_signup p (new_identity email name p) = [] ->
     row = signup_profile (new_identity email name p) email name role /\
     users (base p') = (users (base p) ++ [row])%list).
Proof.
  intros Hh Hnone Htrig.
  set (u := new_identity email name p) in *.
  assert (Hf : filter (fun q => (Profile.id q =? AuthUser.id u)%string) (users (base p)) = []).
  { apply filter_none. intros q Hq. apply String.eqb_neq, Hnone, Hq. }
  unfold signUp.
  destruct Htrig as [Ht | (q & Ht & Hq)].
  - eexists. exists (signup_profile u email name role). split.
    + apply try_catch_ok.
      erewrite bind_ok by (apply auth_request_served, healthy_next, Hh).
      cbn [serve_sign_up fst snd error data answered].
      repeat match goal with
      | |- context [new_identity email name ?x] =>
          change (new_identity email name x) with u
      end.
      erewrite bind_ok.
      2: { erewrite bind_ok by reflexivity.
           erewrite bind_ok.
           2: { apply base_call_served. apply healthy_next.
                apply (healthy_after 1 (base p)); [exact Hh | plan_skipped (base p)]. }
           cbn beta. unfold serve_select_user.
           cbn [base with_base users issue with_now with_next_id with_users use_outcome on_signup].
           rewrite Ht, app_nil_r, Hf. cbn [fst snd error failed].
           erewrite bind_ok.
           2: { apply base_call_served. apply healthy_next.
                apply (healthy_after 2 (base p)); [exact Hh | plan_skipped (base p)]. }
           reflexivity. }
      reflexivity.
    + cbn [base with_base snd serve_insert_user users issue with_now with_next_id
           with_users use_outcome on_signup].
      split.
      { apply (healthy_after 3 (base p)); [exact Hh | plan_skipped (base p)]. }
      split.
      { rewrite filter_app, Hf. cbn [filter app Profile.id].
        rewrite String.eqb_refl. reflexivity. }
      split; [reflexivity |].
      intros _. split; reflexivity.
  - assert (Hq' : (Profile.id q =? AuthUser.id u)%string = true)
      by (apply String.eqb_eq; exact Hq).
    eexists. exists (set_roles [role] q). split.
    + apply try_catch_ok.
      erewrite bind_ok by (apply auth_request_served, healthy_next, Hh).
      cbn [serve_sign_up fst snd error data answered].
      repeat match goal with
      | |- context [new_identity email name ?x] =>
          change (new_identity email name x) with u
      end.
      erewrite bind_ok.
      2: { erewrite bind_ok by reflexivity.
           erewrite bind_ok.
           2: { apply base_call_served. apply healthy_next.
                apply (healthy_after 1 (base p)); [exact Hh | plan_skipped (base p)]. }
           cbn beta. unfold serve_select_user.
           cbn [base with_base users issue with_now with_next_id with_users use_outcome on_signup].
           rewrite Ht, filter_app, Hf. cbn [filter app]. rewrite Hq'.
           cbn [fst snd error answered].
           erewrite bind_ok.
           2: { apply auth_request_served. apply healthy_next.
                apply (healthy_after 2 (base p)); [exact Hh | plan_skipped (base p)]. }
           reflexivity. }
      reflexivity.
    + cbn [base with_base snd serve_update_roles users issue with_now with_next_id
           with_users use_outcome on_signup].
      split.
      { apply (healthy_after 3 (base p)); [exact Hh | plan_skipped (base p)]. }
      rewrite map_app, (map_unmatched _ _ _ Hnone). cbn [map]. rewrite Hq'.
      split.
      { rewrite filter_app, Hf. cbn [filter app set_roles Profile.id].
        rewrite Hq'. reflexivity. }
      split; [reflexivity |].
      intros H0. rewrite H0 in Ht. discriminate.
Qed.

(** X24. A served [signUp] gives the new user the role it was called with: for
    an identity whose id no [users] row has yet, with no trigger or a
    trigger that creates the identity's row, [signUp] reports success and
    [users] then holds exactly one row of the identity, whose roles are the
    one requested role. Without trigger that row is the one [signUp]
    inserts, with the given name and email. *)
Theorem signUp_assigns_requested_role (email password name role : string) (p : Portal) :
  healthy (base p) ->
  (forall q, In q (users (base p)) ->
             Profile.id q <> AuthUser.id (new_identity email name p)) ->
  on_signup p (new_identity email name p) = [] \/
  (exists q, on_signup p (new_identity email name p) = [q] /\
             Profile.id q = AuthUser.id (new_identity email name p)) ->
  fst (signUp email password name role p)
  = Ok {| su_data := Some (new_identity email name p); su_error := None |} /\
  exists row,
    filter (fun q => (Profile.id q =? AuthUser.id (new_identity email name p))%string)
      (users (base (snd (signUp email password name role p)))) = [row] /\
    Profile.roles row = RolesArray [role] /\
    (on_signup p (new_identity email name p) = [] ->
     row = signup_profile (new_identity email name p) email name role /\
     users (base (snd (signUp email password name role p)))
     = (users (base p) ++ [row])%list).
Proof.
  intros Hh Hnone Htrig.
  destruct (signUp_served email password name role p Hh Hnone Htrig)
    as (p' & row & Hrun & _ & Hf & Hr & Hplain).
  rewrite Hrun. split; [reflexivity |].
  exists row. cbn [snd]. split; [exact Hf |]. split; [exact Hr | exact Hplain].
Qed.

Lemma sample_healthy : healthy Sample.up.
Proof.
  intros k i _. destruct i; reflexivity.
Qed.

Lemma sample_no_row (q : Profile.t) : In q (users Sample.up) -> Profile.id q <> "7".
Proof.
  intros [<- | []]. discriminate.
Qed.

Lemma signUp_assigns_requested_role_sample :
  (fst (signUp "eve@example.com" "secret" "Eve" "approver" Portals.plain)
   = Ok {| su_data := Some (new_identity "eve@example.com" "Eve" Portals.plain);
           su_error := None |} /\
   exists row,
     filter (fun q => (Profile.id q =? "7")%string)
       (users (base (snd (signUp "eve@example.com" "secret" "Eve" "approver"
                            Portals.plain)))) = [row] /\
     Profile.roles row = RolesArray ["approver"] /\
     (on_signup Portals.plain (new_identity "eve@example.com" "Eve" Portals.plain) = [] ->
      row = signup_profile (new_identity "eve@example.com" "Eve" Portals.plain)
              "eve@example.com" "Eve" "approver" /\
      users (base (snd (signUp "eve@example.com" "secret" "Eve" "approver"
                          Portals.plain)))
      = (users (base Portals.plain) ++ [row])%list)) /\
  (exists row,
     filter (fun q => (Profile.id q =? "7")%string)
       (users (base (snd (signUp "eve@example.com" "secret" "Eve" "approver"
                            Portals.triggered)))) = [row] /\
     Profile.roles row = RolesArray ["approver"]).
Proof.
  split.
  - apply (signUp_assigns_requested_role "eve@example.com" "secret" "Eve" "approver"
             Portals.plain sample_healthy sample_no_row).
    left. reflexivity.
  - destruct (signUp_assigns_requested_role "eve@example.com" "secret" "Eve" "approver"
                Portals.triggered sample_healthy sample_no_row)
      as (_ & row & Hf & Hr & _).
    + right. eexists. split; reflexivity.
    + exists row. split; [exact Hf | exact Hr].
Defined.





Lemma base_call_failed {A} (c : Call) (serve : World -> Response A * World) (p : Portal)
  (e : BackendError) :
  next_outcome (base p) = Fail e ->
  base_call (request c serve) p = (Ok (failed e), with_base (issue c (base p)) p).
Proof.
  intros H. unfold base_call, request. rewrite H. reflexivity.
Qed.

(** X27. An error of the profile insertion is not reported: when the sign-up
    and the profile read are served, no profile exists and the insertion
    is answered with an error, [signUp] still returns the new identity
    with a null [error], and [users] has no row for it. *)
Theorem signUp_hides_insert_error (email password name role : string) (p : Portal)
  (e : BackendError) :
  served 2 (base p) ->
  nth 2 (plan (base p)) Succeed = Fail e ->
  (forall q, In q (users (base p)) ->
             Profile.id q <> AuthUser.id (new_identity email name p)) ->
  on_signup p (new_identity email name p) = [] ->
  fst (signUp email password name role p)
  = Ok {| su_data := Some (new_identity email name p); su_error := None |} /\
  users (base (snd (signUp email password name role p))) = users (base p).
Proof.
  intros Hs Hfail Hnone Ht.
  set (u := new_identity email name p) in *.
  assert (Hf : filter (fun q => (Profile.id q =? AuthUser.id u)%string) (users (base p)) = []).
  { apply filter_none. intros q Hq. apply String.eqb_neq, Hnone, Hq. }
  assert (Hrun : exists p',
            signUp email password name role p
            = (Ok {| su_data := Some u; su_error := None |}, p') /\
            users (base p') = users (base p)).
  { eexists. split.
    - unfold signUp. apply try_catch_ok.
      erewrite bind_ok by (apply auth_request_served, (served_next _ _ Hs)).
      cbn [serve_sign_up fst snd error data answered].
      repeat match goal with
      | |- context [new_identity email name ?x] =>
          change (new_identity email name x) with u
      end.
      erewrite bind_ok.
      2: { erewrite bind_ok by reflexivity.
           erewrite bind_ok.
           2: { apply base_call_served. apply (served_next 0).
                apply (served_after 1 (base p)); [exact Hs | reflexivity]. }
           cbn beta. unfold serve_select_user.
           cbn [base with_base users issue with_now with_next_id with_users
                use_outcome on_signup].
           rewrite Ht, app_nil_r, Hf. cbn [fst snd error failed].
           erewrite bind_ok.
           2: { apply base_call_failed. unfold next_outcome. cbn.
                rewrite <- Hfail.
                destruct (plan (base p)) as [|? [|? [|? ?]]]; reflexivity. }
           reflexivity. }
      reflexivity.
    - reflexivity. }
  destruct Hrun as (p' & Hrun & Hu). rewrite Hrun. split; [reflexivity | exact Hu].
Qed.

Lemma signUp_hides_insert_error_sample :
  fst (signUp "eve@example.com" "secret" "Eve" "approver" Portals.no_insert)
  = Ok {| su_data := Some (new_identity "eve@example.com" "Eve" Portals.no_insert);
          su_error := None |} /\
  users (base (snd (signUp "eve@example.com" "secret" "Eve" "approver" Portals.no_insert)))
  = users (base Portals.no_insert).
Proof.
  apply (signUp_hides_insert_error "eve@example.com" "secret" "Eve" "approver"
           Portals.no_insert Sample.unreachable).
  - intros [|[|i]] Hi; [reflexivity | reflexivity | simpl in Hi; lia].
  - reflexivity.
  - exact sample_no_row.
  - reflexivity.
Defined.
